(** * timing.js: boundary calculators, military timestamp codec and the
      rolling scheduler, embedded over a model of the ECMAScript Date
      abstract operations.

    Numbers are the integral JavaScript numbers together with NaN and the
    two infinities.  Every time value a Date can hold is an integer of
    magnitude at most 8.64e15 < 2^53, so the IEEE arithmetic of the Date
    algorithms is exact on them and is written here over Z.

    The environment of the module is explicit: the local time zone of the
    host is the offset function LocalTZA of ECMAScript, the wall clock is a
    sequence of readings, and the callback handed to [every] is recorded by
    the arguments of its calls, in order. *)

From Stdlib Require Import ZArith Lia List Bool Ascii String Sorted.
From Equations Require Import Equations.
Import ListNotations.

Local Open Scope Z_scope.

(** ** JavaScript numbers and values *)

Inductive jsnum : Type :=
  | Num (z : Z)
  | NaN
  | PInf
  | NInf.

(** A value as the calculators receive it: [undefined] or a number. *)
Inductive value : Type :=
  | VUndef
  | VNum (n : jsnum).

(** ToBoolean: [undefined], [0] and [NaN] are falsy. *)
Definition truthy (v : value) : bool :=
  match v with
  | VUndef => false
  | VNum (Num z) => negb (z =? 0)
  | VNum NaN => false
  | VNum _ => true
  end.

(** ToNumber on the values above. *)
Definition ToNumber (v : value) : jsnum :=
  match v with
  | VUndef => NaN
  | VNum n => n
  end.

(** The binary [+] on numbers. *)
Definition js_add (a b : jsnum) : jsnum :=
  match a, b with
  | Num x, Num y => Num (x + y)
  | NaN, _ | _, NaN => NaN
  | PInf, NInf | NInf, PInf => NaN
  | PInf, _ | _, PInf => PInf
  | NInf, _ | _, NInf => NInf
  end.

(** The binary [-] on numbers. *)
Definition js_sub (a b : jsnum) : jsnum :=
  match a, b with
  | Num x, Num y => Num (x - y)
  | NaN, _ | _, NaN => NaN
  | PInf, PInf | NInf, NInf => NaN
  | PInf, _ | _, NInf => PInf
  | NInf, _ | _, PInf => NInf
  end.

(** The relational [a < b] on numbers: false as soon as one side is NaN. *)
Definition js_lt (a b : jsnum) : bool :=
  match a, b with
  | Num x, Num y => x <? y
  | Num _, PInf => true
  | NInf, Num _ => true
  | NInf, PInf => true
  | _, _ => false
  end.

(** [a > b] is [b < a]. *)
Definition js_gt (a b : jsnum) : bool := js_lt b a.

(** [Math.round(x / d)] for a positive integer divisor [d]: the quotient
    rounded to the nearest integer, ties towards +infinity.  The double
    nearest to [x / d] lies on the same side of every half-integer as the
    exact quotient, so the result is the floor of [x / d + 1/2]. *)
Definition Math_round_quot (x : jsnum) (d : Z) : jsnum :=
  match x with
  | Num m => Num ((2 * m + d) / (2 * d))
  | other => other
  end.

(** ** ECMAScript time constants and day arithmetic *)

Definition msPerSecond : Z := 1000.
Definition msPerMinute : Z := 60000.
Definition msPerHour : Z := 3600000.
Definition msPerDay : Z := 86400000.
Definition maxTime : Z := 8640000000000000.

Definition Day (t : Z) : Z := t / msPerDay.
Definition TimeWithinDay (t : Z) : Z := t mod msPerDay.

Definition is_leap (y : Z) : bool :=
  if negb (y mod 4 =? 0) then false
  else if negb (y mod 100 =? 0) then true
  else if negb (y mod 400 =? 0) then false
  else true.

Definition DaysInYear (y : Z) : Z := if is_leap y then 366 else 365.

Definition DayFromYear (y : Z) : Z :=
  365 * (y - 1970) + (y - 1969) / 4 - (y - 1901) / 100 + (y - 1601) / 400.

Definition TimeFromYear (y : Z) : Z := msPerDay * DayFromYear y.

(** The year containing day number [d]: the largest [y] with
    [DayFromYear y <= d].  It is computed from the mean Gregorian year of
    146097/400 days and one correction step; [YearFromDay_spec] below shows
    that this is the year ECMAScript defines. *)
Definition YearFromDay (d : Z) : Z :=
  let y := 1970 + (d * 400) / 146097 in
  if d <? DayFromYear y then y - 1
  else if DayFromYear (y + 1) <=? d then y + 1
  else y.

Definition YearFromTime (t : Z) : Z := YearFromDay (Day t).

Definition InLeapYear (t : Z) : Z :=
  if is_leap (YearFromTime t) then 1 else 0.

Definition DayWithinYear (t : Z) : Z := Day t - DayFromYear (YearFromTime t).

(** Month number (0 = January) from the day within the year [dwy] and the
    leap flag [lp], by the table of MonthFromTime. *)
Definition month_of_yearday (dwy lp : Z) : Z :=
  if dwy <? 31 then 0
  else if dwy <? 59 + lp then 1
  else if dwy <? 90 + lp then 2
  else if dwy <? 120 + lp then 3
  else if dwy <? 151 + lp then 4
  else if dwy <? 181 + lp then 5
  else if dwy <? 212 + lp then 6
  else if dwy <? 243 + lp then 7
  else if dwy <? 273 + lp then 8
  else if dwy <? 304 + lp then 9
  else if dwy <? 334 + lp then 10
  else 11.

(** Number of days of the year that precede month [mn] (0..11). *)
Definition days_before_month (mn lp : Z) : Z :=
  if mn =? 0 then 0
  else if mn =? 1 then 31
  else if mn =? 2 then 59 + lp
  else if mn =? 3 then 90 + lp
  else if mn =? 4 then 120 + lp
  else if mn =? 5 then 151 + lp
  else if mn =? 6 then 181 + lp
  else if mn =? 7 then 212 + lp
  else if mn =? 8 then 243 + lp
  else if mn =? 9 then 273 + lp
  else if mn =? 10 then 304 + lp
  else 334 + lp.

Definition MonthFromTime (t : Z) : Z :=
  month_of_yearday (DayWithinYear t) (InLeapYear t).

Definition DateFromTime (t : Z) : Z :=
  DayWithinYear t - days_before_month (MonthFromTime t) (InLeapYear t) + 1.

Definition HourFromTime (t : Z) : Z := (t / msPerHour) mod 24.
Definition MinFromTime (t : Z) : Z := (t / msPerMinute) mod 60.
Definition SecFromTime (t : Z) : Z := (t / msPerSecond) mod 60.
Definition msFromTime (t : Z) : Z := t mod msPerSecond.

(** ** MakeTime, MakeDay, MakeDate, TimeClip *)

Definition MakeTime (hour min sec ms : jsnum) : jsnum :=
  match hour, min, sec, ms with
  | Num h, Num m, Num s, Num milli =>
      Num (h * msPerHour + m * msPerMinute + s * msPerSecond + milli)
  | _, _, _, _ => NaN
  end.

(** Day number of the first day of month [m] (any integer, normalised
    into a year carry and a month 0..11) of year [y]. *)
Definition day_of_month_start (y m : Z) : Z :=
  let ym := y + m / 12 in
  let mn := m mod 12 in
  DayFromYear ym + days_before_month mn (if is_leap ym then 1 else 0).

Definition MakeDay (year month date : jsnum) : jsnum :=
  match year, month, date with
  | Num y, Num m, Num dt => Num (day_of_month_start y m + dt - 1)
  | _, _, _ => NaN
  end.

Definition MakeDate (day time : jsnum) : jsnum :=
  match day, time with
  | Num d, Num t => Num (d * msPerDay + t)
  | _, _ => NaN
  end.

Definition TimeClip (time : jsnum) : jsnum :=
  match time with
  | Num t => if Z.abs t <=? maxTime then Num t else NaN
  | _ => NaN
  end.

(** ** The local time zone

    The zone of the host enters the Date algorithms through
    LocalTZA(t, isUTC), the offset of local time from UTC in milliseconds:
    the offset in effect at the UTC time value [t] when [isUTC] is true, and
    the offset by which the local time value [t] is read when it is false.
    ECMAScript reads a local time that a transition repeats or skips with
    the offset in effect before the transition; [transition] below is such a
    zone. *)
Definition zone : Type := Z -> bool -> Z.

(** A zone whose offset never changes, [offset] milliseconds east of UTC. *)
Definition fixed (offset : Z) : zone := fun _ _ => offset.
Arguments fixed offset _ _ /.

(** A zone with one transition: the offset is [before] up to the instant
    [switch] and [after] from it on.  The local times between
    [switch + Z.min before after] and [switch + Z.max before after] are
    repeated (clocks set back) or skipped (clocks set forward), and are read
    with the offset [before]. *)
Definition transition (switch before after : Z) : zone :=
  fun t isUTC =>
    if isUTC then (if t <? switch then before else after)
    else (if t <? switch + Z.max before after then before else after).

(** ** Date objects

    A Date object is its time value: an integral number of magnitude at
    most [maxTime], or NaN for an invalid date. *)

Section LocalZone.

Variable tz : zone.

Definition LocalTime (t : Z) : Z := t + tz t true.
Definition UTC (t : jsnum) : jsnum :=
  match t with
  | Num tl => Num (tl - tz tl false)
  | _ => NaN
  end.

(** [new Date(v)] for [undefined] or a number. *)
Definition new_Date (v : value) : jsnum := TimeClip (ToNumber v).

(** [new Date(d)] for a Date object [d] copies its time value, and the
    unary [+] reads it back. *)
Definition Date_copy (d : jsnum) : jsnum := d.

(** Getters: NaN on an invalid date. *)
Definition on_time (f : Z -> Z) (d : jsnum) : jsnum :=
  match d with
  | Num t => Num (f t)
  | _ => NaN
  end.

Definition getDate : jsnum -> jsnum := on_time (fun t => DateFromTime (LocalTime t)).
Definition getHours : jsnum -> jsnum := on_time (fun t => HourFromTime (LocalTime t)).
Definition getMinutes : jsnum -> jsnum := on_time (fun t => MinFromTime (LocalTime t)).
Definition getSeconds : jsnum -> jsnum := on_time (fun t => SecFromTime (LocalTime t)).

Definition getUTCFullYear : jsnum -> jsnum := on_time YearFromTime.
Definition getUTCMonth : jsnum -> jsnum := on_time MonthFromTime.
Definition getUTCDate : jsnum -> jsnum := on_time DateFromTime.
Definition getUTCHours : jsnum -> jsnum := on_time HourFromTime.
Definition getUTCMinutes : jsnum -> jsnum := on_time MinFromTime.

(** An argument that was left out takes the field of the current local
    time. *)
Definition arg_or (a : option jsnum) (dflt : Z) : jsnum :=
  match a with
  | Some n => n
  | None => Num dflt
  end.

(** Setters return the new time value of the date. *)
Definition setDate (d : jsnum) (date : jsnum) : jsnum :=
  match d with
  | Num t0 =>
      let t := LocalTime t0 in
      let newDate :=
        MakeDate (MakeDay (Num (YearFromTime t)) (Num (MonthFromTime t)) date)
                 (Num (TimeWithinDay t)) in
      TimeClip (UTC newDate)
  | _ => NaN
  end.

Definition setHours (d : jsnum) (hour : jsnum) (min sec ms : option jsnum) : jsnum :=
  match d with
  | Num t0 =>
      let t := LocalTime t0 in
      let m := arg_or min (MinFromTime t) in
      let s := arg_or sec (SecFromTime t) in
      let milli := arg_or ms (msFromTime t) in
      TimeClip (UTC (MakeDate (Num (Day t)) (MakeTime hour m s milli)))
  | _ => NaN
  end.

Definition setMinutes (d : jsnum) (min : jsnum) (sec ms : option jsnum) : jsnum :=
  match d with
  | Num t0 =>
      let t := LocalTime t0 in
      let s := arg_or sec (SecFromTime t) in
      let milli := arg_or ms (msFromTime t) in
      TimeClip (UTC (MakeDate (Num (Day t))
                              (MakeTime (Num (HourFromTime t)) min s milli)))
  | _ => NaN
  end.

Definition setSeconds (d : jsnum) (sec : jsnum) (ms : option jsnum) : jsnum :=
  match d with
  | Num t0 =>
      let t := LocalTime t0 in
      let milli := arg_or ms (msFromTime t) in
      TimeClip (UTC (MakeDate (Num (Day t))
                              (MakeTime (Num (HourFromTime t)) (Num (MinFromTime t))
                                        sec milli)))
  | _ => NaN
  end.

Definition setMilliseconds (d : jsnum) (ms : jsnum) : jsnum :=
  match d with
  | Num t0 =>
      let t := LocalTime t0 in
      TimeClip (UTC (MakeDate (Num (Day t))
                              (MakeTime (Num (HourFromTime t)) (Num (MinFromTime t))
                                        (Num (SecFromTime t)) ms)))
  | _ => NaN
  end.

(** ** The boundary calculators of timing.js

    [now] is what [+new Date()] reads from the wall clock; the clock is
    only consulted when [date] is falsy. *)

(** [date || (+new Date())] *)
Definition or_now (now : Z) (date : value) : value :=
  if truthy date then date else VNum (Num now).

Definition nextday (now : Z) (date : value) : jsnum :=
  let d0 := new_Date (or_now now date) in
  let d1 := setDate d0 (js_add (getDate d0) (Num 1)) in
  let d2 := setHours d1 (Num 0) (Some (Num 0)) (Some (Num 0)) None in
  let d3 := setMinutes d2 (Num 0) (Some (Num 0)) (Some (Num 0)) in
  Date_copy d3.

Definition nextHour (now : Z) (date : value) : jsnum :=
  let d0 := new_Date (or_now now date) in
  let nh := js_add (getHours d0) (Math_round_quot (getMinutes d0) 60) in
  let d1 :=
    if js_gt nh (Num 23) then
      let d := setHours d0 (Num 0) None None None in
      setDate d (js_add (getDate d) (Num 1))
    else
      setHours d0 nh None None None in
  let d2 := setMinutes d1 (Num 0) (Some (Num 0)) (Some (Num 0)) in
  Date_copy d2.

Definition nextMinute (now : Z) (date : value) : jsnum :=
  let d0 := new_Date (or_now now date) in
  let d1 := setMinutes d0 (js_add (getMinutes d0) (Num 1)) None None in
  let d2 := setSeconds d1 (Num 0) (Some (Num 0)) in
  Date_copy d2.

Definition nextSecond (now : Z) (date : value) : jsnum :=
  let d0 := new_Date (or_now now date) in
  let d1 := setSeconds d0 (js_add (getSeconds d0) (Num 1)) None in
  let d2 := setMilliseconds d1 (Num 0) in
  Date_copy d2.

End LocalZone.

(** ** Strings: Number::toString, padStart, split, StringToNumber

    Strings are sequences of code units below 256. *)

Local Open Scope string_scope.
Local Open Scope list_scope.
Local Open Scope Z_scope.

Definition digit_char (k : Z) : ascii := ascii_of_nat (48 + Z.to_nat k).

(** Decimal digits of [n >= 0], most significant first, in front of [acc]. *)
Fixpoint nat_digits (fuel : nat) (n : Z) (acc : string) : string :=
  match fuel with
  | O => acc
  | S f =>
      let acc' := String (digit_char (n mod 10)) acc in
      if n <? 10 then acc' else nat_digits f (n / 10) acc'
  end.

Definition digits_fuel (n : Z) : nat := S (Z.to_nat (Z.log2 n)).

Definition Z_to_string (z : Z) : string :=
  if z <? 0 then String "-" (nat_digits (digits_fuel (- z)) (- z) "")
  else nat_digits (digits_fuel z) z "".

(** Number::toString (radix 10) on integral numbers below 10^21 in
    magnitude, where JavaScript prints plain decimal digits. *)
Definition Number_toString (n : jsnum) : string :=
  match n with
  | Num z => Z_to_string z
  | NaN => "NaN"
  | PInf => "Infinity"
  | NInf => "-Infinity"
  end.

Fixpoint replicate (n : nat) (c : ascii) : string :=
  match n with
  | O => ""
  | S k => String c (replicate k c)
  end.

(** [s.padStart(n, c)] for a one-character filler. *)
Definition padStart (n : nat) (c : ascii) (s : string) : string :=
  (replicate (n - String.length s) c ++ s)%string.

(** [s.split(sep)] for a one-character separator: never empty. *)
Fixpoint split (sep : ascii) (s : string) : list string :=
  match s with
  | EmptyString => [""]
  | String c r =>
      if Ascii.eqb c sep then "" :: split sep r
      else match split sep r with
           | f :: fs => String c f :: fs
           | [] => [String c ""]
           end
  end.

(** The exact value of a numeric string: not a number, an infinity, or the
    decimal [m * 10^e].  Rounding of the value to a double is not part of
    the model; it only matters for literals of more than 15 significant
    digits. *)
Inductive numlit : Type :=
  | LNaN
  | LInf (neg : bool)
  | LDec (m e : Z).

(** WhiteSpace and LineTerminator code units: TAB, LF, VT, FF, CR, SP, NBSP. *)
Definition is_white (c : ascii) : bool :=
  let n := nat_of_ascii c in
  ((9 <=? n) && (n <=? 13) || (n =? 32) || (n =? 160))%nat.

Fixpoint trim_start (s : string) : string :=
  match s with
  | String c r => if is_white c then trim_start r else s
  | EmptyString => s
  end.

Fixpoint trim_end (s : string) : string :=
  match s with
  | String c r =>
      match trim_end r with
      | EmptyString => if is_white c then "" else String c ""
      | r' => String c r'
      end
  | EmptyString => s
  end.

(** Value of a digit in base [base <= 16], if [c] is one. *)
Definition digit_value (base : Z) (c : ascii) : option Z :=
  let n := Z.of_nat (nat_of_ascii c) in
  let v := if (48 <=? n) && (n <=? 57) then n - 48
           else if (97 <=? n) && (n <=? 102) then n - 87
           else if (65 <=? n) && (n <=? 70) then n - 55
           else 16 in
  if v <? base then Some v else None.

(** Reads the longest prefix of digits, continuing the value [acc] and the
    count [cnt]; returns what follows the digits as well. *)
Fixpoint take_digits (base : Z) (s : string) (acc : Z) (cnt : nat) : Z * nat * string :=
  match s with
  | String c r =>
      match digit_value base c with
      | Some d => take_digits base r (acc * base + d) (S cnt)
      | None => (acc, cnt, s)
      end
  | EmptyString => (acc, cnt, s)
  end.

(** One or more digits and nothing else. *)
Definition all_digits (base : Z) (s : string) : option Z :=
  match take_digits base s 0 0 with
  | (v, S _, EmptyString) => Some v
  | _ => None
  end.

(** ExponentPart, or nothing. *)
Definition parse_exponent (s : string) : option Z :=
  match s with
  | EmptyString => Some 0
  | String c r =>
      if Ascii.eqb c "e" || Ascii.eqb c "E" then
        match r with
        | String "+" r' => all_digits 10 r'
        | String "-" r' => option_map Z.opp (all_digits 10 r')
        | _ => all_digits 10 r
        end
      else None
  end.

(** StrUnsignedDecimalLiteral *)
Definition parse_unsigned_decimal (s : string) : numlit :=
  if String.eqb s "Infinity" then LInf false
  else
    let '(ip, ic, r1) := take_digits 10 s 0 0 in
    match r1 with
    | String "." r =>
        let '(m, fc, r2) := take_digits 10 r ip 0 in
        if (ic + fc =? 0)%nat then LNaN
        else match parse_exponent r2 with
             | Some e => LDec m (e - Z.of_nat fc)
             | None => LNaN
             end
    | _ =>
        if (ic =? 0)%nat then LNaN
        else match parse_exponent r1 with
             | Some e => LDec ip e
             | None => LNaN
             end
    end.

Definition lit_neg (l : numlit) : numlit :=
  match l with
  | LNaN => LNaN
  | LInf b => LInf (negb b)
  | LDec m e => LDec (- m) e
  end.

(** The radix announced by the second character of a "0x", "0o" or "0b"
    prefix. *)
Definition radix_of (x : ascii) : option Z :=
  if Ascii.eqb x "x" || Ascii.eqb x "X" then Some 16
  else if Ascii.eqb x "o" || Ascii.eqb x "O" then Some 8
  else if Ascii.eqb x "b" || Ascii.eqb x "B" then Some 2
  else None.

(** NonDecimalIntegerLiteral: [None] when [s] has no radix prefix. *)
Definition parse_radix (s : string) : option numlit :=
  match s with
  | String c (String x r) =>
      if Ascii.eqb c "0" then
        match radix_of x with
        | Some base => Some match all_digits base r with
                            | Some v => LDec v 0
                            | None => LNaN
                            end
        | None => None
        end
      else None
  | _ => None
  end.

(** StrNumericLiteral: a radix-prefixed integer, or a signed decimal. *)
Definition parse_numeric (s : string) : numlit :=
  match parse_radix s with
  | Some l => l
  | None =>
      match s with
      | String c r =>
          if Ascii.eqb c "+" then parse_unsigned_decimal r
          else if Ascii.eqb c "-" then lit_neg (parse_unsigned_decimal r)
          else parse_unsigned_decimal s
      | EmptyString => LNaN
      end
  end.

(** StringToNumber: surrounding white space is dropped and the empty string
    is 0. *)
Definition StringToNumber (s : string) : numlit :=
  match trim_end (trim_start s) with
  | EmptyString => LDec 0 0
  | t => parse_numeric t
  end.

(** ToNumber of a destructured array element: a string, or [undefined]
    when the array was too short. *)
Definition ToNumber_field (f : option string) : numlit :=
  match f with
  | Some s => StringToNumber s
  | None => LNaN
  end.

(** [x - 1] *)
Definition lit_pred (l : numlit) : numlit :=
  match l with
  | LDec m e => if 0 <=? e then LDec (m * 10 ^ e - 1) 0 else LDec (m - 10 ^ (- e)) e
  | other => other
  end.

(** The integral number a Date algorithm works with: truncation towards
    zero (ToIntegerOrInfinity), NaN and the infinities kept for the
    finiteness checks of MakeDay and MakeTime. *)
Definition integral (l : numlit) : jsnum :=
  match l with
  | LNaN => NaN
  | LInf false => PInf
  | LInf true => NInf
  | LDec m e => if 0 <=? e then Num (m * 10 ^ e) else Num (Z.quot m (10 ^ (- e)))
  end.

(** MakeFullYear: years 0..99 stand for 1900..1999. *)
Definition MakeFullYear (year : jsnum) : jsnum :=
  match year with
  | Num y => if (0 <=? y) && (y <=? 99) then Num (1900 + y) else Num y
  | other => other
  end.

(** [Date.UTC(year, month, date, hours, minutes)] with all five arguments
    present.  The fields are taken at their exact decimal value and the
    arithmetic is that of Z; the doubles of the code agree with it as long as
    every field and every intermediate result is an integer below 2^53, as
    they are for fields of a few digits.  Beyond that (fields with a fraction
    or an exponent, or of many digits) the rounding of the doubles and the
    limits an engine puts on the month are not modelled. *)
Definition Date_UTC (year month date hours minutes : numlit) : jsnum :=
  let yr := MakeFullYear (integral year) in
  TimeClip (MakeDate (MakeDay yr (integral month) (integral date))
                     (MakeTime (integral hours) (integral minutes) (Num 0) (Num 0))).

(** ** The military timestamp codec of timing.js *)

Definition unixToMilitary (unixTimestamp : value) : string :=
  let date := new_Date unixTimestamp in
  let year := getUTCFullYear date in
  let month := padStart 2 "0" (Number_toString (js_add (getUTCMonth date) (Num 1))) in
  let day := padStart 2 "0" (Number_toString (getUTCDate date)) in
  let hours := padStart 2 "0" (Number_toString (getUTCHours date)) in
  let minutes := padStart 2 "0" (Number_toString (getUTCMinutes date)) in
  (Number_toString year ++ "/" ++ month ++ "/" ++ day ++ "/" ++ hours ++ "/" ++ minutes)%string.

Definition militaryToUnix (formattedString : string) : jsnum :=
  let fields := split "/" formattedString in
  let year := nth_error fields 0 in
  let month := nth_error fields 1 in
  let day := nth_error fields 2 in
  let hours := nth_error fields 3 in
  let minutes := nth_error fields 4 in
  Date_UTC (ToNumber_field year) (lit_pred (ToNumber_field month))
           (ToNumber_field day) (ToNumber_field hours) (ToNumber_field minutes).

(** ** The rolling scheduler of timing.js

    The module object: [now], [upcomming] and [settings].  [settings] keeps
    the shape it has in the source, four numeric entries; their values may
    be changed. *)

Module Settings.
Record t : Type := mk { nextDay : Z; nextHour : Z; nextMinute : Z; nextSecond : Z }.
End Settings.

Record timing : Type := mkTiming {
  now : value;
  upcomming : list jsnum;
  settings : Settings.t
}.

(** The module as it is loaded. *)
Definition initial : timing :=
  {| now := VUndef;
     upcomming := [];
     settings := Settings.mk 7 24 60 60 |}.

(** [this.settings[key]]; [None] is [undefined] (or an inherited property
    of the object, which compares like [undefined]). *)
Definition settings_get (s : Settings.t) (key : string) : option Z :=
  if String.eqb key "nextDay" then Some (Settings.nextDay s)
  else if String.eqb key "nextHour" then Some (Settings.nextHour s)
  else if String.eqb key "nextMinute" then Some (Settings.nextMinute s)
  else if String.eqb key "nextSecond" then Some (Settings.nextSecond s)
  else None.

Inductive error : Type :=
  | TypeError.

Inductive outcome (A : Type) : Type :=
  | Normal (a : A)
  | Throw (e : error).
Arguments Normal {A} a.
Arguments Throw {A} e.

Definition inspect {A : Type} (a : A) : {b : A | a = b} := exist _ a eq_refl.

Section Scheduler.

Variable tz : zone.
(** The wall clock: [clock i] is what the [i]-th evaluation of
    [+new Date()] returns. *)
Variable clock : nat -> Z.

(** [this[key]] for a key that has an entry in [settings]: one of the
    calculators, or nothing callable. *)
Definition method (key : string) : option (Z -> value -> jsnum) :=
  if String.eqb key "nextday" then Some (nextday tz)
  else if String.eqb key "nextHour" then Some (nextHour tz)
  else if String.eqb key "nextMinute" then Some (nextMinute tz)
  else if String.eqb key "nextSecond" then Some (nextSecond tz)
  else None.

(** [a[a.length - 1]] *)
Definition last_entry (q : list jsnum) : value :=
  match q with
  | [] => VUndef
  | _ => VNum (last q NaN)
  end.

(** [a[0]] *)
Definition front_entry (q : list jsnum) : value :=
  match q with
  | [] => VUndef
  | x :: _ => VNum x
  end.

(** [this.upcomming.length < this.settings[timing]] *)
Definition below_depth (this : timing) (key : string) : bool :=
  match settings_get (settings this) key with
  | Some n => Z.of_nat (List.length (upcomming this)) <? n
  | None => false
  end.

Definition gap (this : timing) (key : string) : nat :=
  match settings_get (settings this) key with
  | Some n => Z.to_nat (n - Z.of_nat (List.length (upcomming this)))
  | None => O
  end.

Definition push (this : timing) (x : jsnum) : timing :=
  {| now := now this; upcomming := upcomming this ++ [x]; settings := settings this |}.

(** The [while] loop of [every].  [reads] counts the clock readings made
    so far; a calculator reads the clock only for a falsy argument. *)
Equations? fill (this : timing) (reads : nat) (key : string) : outcome (timing * nat)
  by wf (gap this key) lt :=
  fill this reads key with inspect (below_depth this key) => {
    | exist _ false _ => Normal (this, reads);
    | exist _ true Hlt with method key => {
        | None => Throw TypeError;
        | Some calc =>
            let tail := last_entry (upcomming this) in
            fill (push this (calc (clock reads) tail))
                 (if truthy tail then reads else S reads) key } }.
Proof.
  unfold below_depth, gap in *. simpl.
  destruct (settings_get (settings this) key) as [n|]; [|discriminate].
  rewrite List.length_app. simpl. lia.
Qed.

(** [every(timing, doSomething)] with a callback that returns: the module
    afterwards, the number of clock readings, and the arguments of the calls
    of [doSomething] in order. *)
Definition every (this : timing) (reads : nat) (key : string)
  : outcome (timing * nat * list string) :=
  match fill this reads key with
  | Throw e => Throw e
  | Normal (this1, reads1) =>
      if js_lt (ToNumber (front_entry (upcomming this1))) (Num (clock reads1)) then
        let fired := front_entry (upcomming this1) in
        let this2 := {| now := fired;
                        upcomming := tl (upcomming this1);
                        settings := settings this1 |} in
        Normal (this2, S reads1, [unixToMilitary fired])
      else Normal (this1, S reads1, [])
  end.

(** What [every] can be handed as [doSomething]: a value that cannot be
    called (a missing argument is [undefined]), or a function.  Of a function
    the model keeps whether its call with a given text returns or throws; it
    is taken to leave the module alone. *)
Inductive callback : Type :=
  | NotCallable
  | Function (returns : string -> bool).

(** How a call of [every] ends, and the module it leaves: it returns, it
    raises an error of its own, or the callback throws. *)
Inductive completion : Type :=
  | Returned (this : timing) (reads : nat) (calls : list string)
  | Raised (e : error) (this : timing)
  | Thrown (timestamp : string) (this : timing).

(** [every(timing, doSomething)] with the callback looked at.  The loop
    raises in its first turn or not at all, so it leaves the module as it
    was; [now] and [upcomming] are assigned before [doSomething] is called,
    and its argument is evaluated before the call is attempted. *)
Definition every_with (doSomething : callback) (this : timing) (reads : nat) (key : string)
  : completion :=
  match fill this reads key with
  | Throw e => Raised e this
  | Normal (this1, reads1) =>
      if js_lt (ToNumber (front_entry (upcomming this1))) (Num (clock reads1)) then
        let fired := front_entry (upcomming this1) in
        let this2 := {| now := fired;
                        upcomming := tl (upcomming this1);
                        settings := settings this1 |} in
        let timestamp := unixToMilitary fired in
        match doSomething with
        | NotCallable => Raised TypeError this2
        | Function returns =>
            if returns timestamp then Returned this2 (S reads1) [timestamp]
            else Thrown timestamp this2
        end
      else Returned this1 (S reads1) []
  end.

(** [checkEvery(timing, intervalMs, doSomething)] over the first [ticks]
    firings of its interval timer.  Each firing calls [every] with a callback
    that clears the timer and then calls [doSomething], so the firing in
    which [every] calls back is the last one.  The interval itself is not a
    parameter: the time that passes between two firings is in the readings
    of the clock.  An error raised by [every] inside the timer is the
    outcome of the run: [every] raises before it changes anything, so a
    later firing could only raise it again.
    The result lists the arguments of the calls of [doSomething]. *)
Fixpoint checkEvery (ticks : nat) (this : timing) (reads : nat) (key : string)
  : outcome (timing * nat * list string) :=
  match ticks with
  | O => Normal (this, reads, [])
  | S n =>
      match every this reads key with
      | Throw e => Throw e
      | Normal (this', reads', []) => checkEvery n this' reads' key
      | Normal (this', reads', timestamp :: more) =>
          Normal (this', reads', timestamp :: more)
      end
  end.

End Scheduler.

(** * Vocabulary of the properties *)

(** ** Instants and boundaries *)

(** The hour [nextHour] aims at: the local hour plus [Math.round] of the
    minutes over 60, that is plus one from minute 30 on. *)
Definition roundedHour (tz : zone) (ref : Z) : Z :=
  HourFromTime (LocalTime tz ref) + (if MinFromTime (LocalTime tz ref) <? 30 then 0 else 1).

(** What C1 says of a result [v] of [nextHour] at [ref], read in the local
    zone: minutes, seconds and milliseconds are zero, and the hour is the
    rounded hour of [ref]'s day, or hour 0 of the following day when the
    rounded hour exceeds 23. *)
Definition is_rounded_hour (tz : zone) (ref : Z) (v : jsnum) : Prop :=
  exists r, v = Num r /\
    MinFromTime (LocalTime tz r) = 0 /\ SecFromTime (LocalTime tz r) = 0 /\
    msFromTime (LocalTime tz r) = 0 /\
    (if 23 <? roundedHour tz ref
     then Day (LocalTime tz r) = Day (LocalTime tz ref) + 1 /\ HourFromTime (LocalTime tz r) = 0
     else Day (LocalTime tz r) = Day (LocalTime tz ref) /\
          HourFromTime (LocalTime tz r) = roundedHour tz ref).

(** Zones of the year 2023, each around one of its transitions: New York
    going from UTC-5 to UTC-4 on March 12 at 07:00Z and back on November 5
    at 06:00Z, Cairo going from UTC+2 to UTC+3 on April 27 at 22:00Z (local
    midnight), and Lord Howe Island going from UTC+10:30 to UTC+11 on
    September 30 at 15:30Z. *)
Definition new_york_march : zone := transition 1678604400000 (-18000000) (-14400000).
Definition new_york_november : zone := transition 1699164000000 (-14400000) (-18000000).
Definition cairo_april : zone := transition 1682632800000 7200000 10800000.
Definition lord_howe_october : zone := transition 1696087800000 37800000 39600000.

(** The two instants of the scenarios. *)
Definition ref_10_10 : Z := 1686823800000.  (* 2023-06-15T10:10:00Z *)
Definition ref_23_45 : Z := 1686872700000.  (* 2023-06-15T23:45:00Z *)

(** What C4 says of a result [v] of [nextMinute] at [x]. *)
Definition is_next_minute_start (tz : zone) (x : Z) (v : jsnum) : Prop :=
  exists r, v = Num r /\
    SecFromTime (LocalTime tz r) = 0 /\ msFromTime (LocalTime tz r) = 0 /\
    x < r <= x + 60000.

(** What C5 says of a result [v] of [nextday] at [x]: local midnight of the
    day after [x]'s local day. *)
Definition is_next_local_midnight (tz : zone) (x : Z) (v : jsnum) : Prop :=
  exists r, v = Num r /\
    Day (LocalTime tz r) = Day (LocalTime tz x) + 1 /\
    TimeWithinDay (LocalTime tz r) = 0.

(** What [unixToMilitary] prints for an invalid date. *)
Definition NaN_stamp : string := "NaN/NaN/NaN/NaN/NaN".

(** An input that is no instant: infinite, or an integer out of the range
    of Date. *)
Definition not_an_instant (n : jsnum) : Prop :=
  match n with
  | Num x => maxTime < Z.abs x
  | NaN => False
  | PInf | NInf => True
  end.

(** The offset of the zone [tz] is [off] from the instant [lo] to the
    instant [hi]: at each of these instants local time is [off] ahead of
    UTC, and the local time of each is read back with the same offset.  No
    transition of the zone touches the interval. *)
Definition steady (tz : zone) (off lo hi : Z) : Prop :=
  forall t, lo <= t <= hi -> tz t true = off /\ tz (t + off) false = off.

(** ** Texts *)

(** Every character of [s] passes the test [p]. *)
Fixpoint forall_chars (p : ascii -> bool) (s : string) : bool :=
  match s with
  | EmptyString => true
  | String c r => p c && forall_chars p r
  end.

(** The characters 0 to 9. *)
Definition is_digit (c : ascii) : bool :=
  let n := nat_of_ascii c in ((48 <=? n) && (n <=? 57))%nat.

(** [s] is a non-empty text of decimal digits, and reads as [n]. *)
Definition decimal_of (s : string) (n : Z) : Prop :=
  forall_chars is_digit s = true /\
  forall c, exists k, take_digits 10 s 0 c = (n, S (c + k), EmptyString).

(** [s] has no separator in it. *)
Definition no_slash (s : string) : bool :=
  forall_chars (fun c => negb (Ascii.eqb c "/")) s.

(** A field of two digits, as [unixToMilitary] prints month, day, hours and
    minutes. *)
Definition two_digits (n : Z) : string := padStart 2 "0" (Number_toString (Num n)).

(** [x] truncated down to the minute. *)
Definition floor_to_minute (x : Z) : Z := x - x mod msPerMinute.

(** An instant of the first century. *)
Definition year_50 : Z := -60589296000000.  (* 0050-01-01T00:00:00Z *)

(** ** The queue *)

(** The arguments of the calls of the callback made by a call of [every]. *)
Definition calls (o : outcome (timing * nat * list string)) : list string :=
  match o with
  | Normal (_, _, evs) => evs
  | Throw _ => []
  end.

(** A call of [every] that does not return. *)
Definition abrupt (c : completion) : Prop :=
  match c with
  | Returned _ _ _ => False
  | _ => True
  end.

(** The call of the callback with [timestamp] does not return. *)
Definition fails (doSomething : callback) (timestamp : string) : Prop :=
  match doSomething with
  | NotCallable => True
  | Function returns => returns timestamp = false
  end.

(** The start of the local minute after the one [x] is in, where local
    time is [tz] milliseconds ahead of UTC. *)
Definition next_minute (tz x : Z) : Z := ((x + tz) / msPerMinute + 1) * msPerMinute - tz.

(** [this.settings.nextMinute = n] *)
Definition set_minute_depth (this : timing) (n : Z) : timing :=
  {| now := now this;
     upcomming := upcomming this;
     settings := let s := settings this in
                 Settings.mk (Settings.nextDay s) (Settings.nextHour s) n
                             (Settings.nextSecond s) |}.

(** Each entry is less than or equal to the next. *)
Fixpoint nondecreasing (l : list Z) : Prop :=
  match l with
  | x :: (y :: _) as r => x <= y /\ nondecreasing r
  | _ => True
  end.

(** [z] is on a local hour boundary. *)
Definition on_hour (tz : zone) (z : Z) : Prop :=
  MinFromTime (LocalTime tz z) = 0 /\ SecFromTime (LocalTime tz z) = 0 /\
  msFromTime (LocalTime tz z) = 0.

(** What an entry must satisfy before a call of [every] with depth [d]:
    after the epoch, with room for [d] more minutes and a day below the end
    of the range of Date, and for the hour kind on an hour boundary. *)
Definition entry_ok (tz : zone) (key : string) (d : Z) (z : Z) : Prop :=
  0 < z /\ z + msPerDay + Z.max 0 d * msPerMinute <= maxTime /\
  (key = "nextHour"%string -> on_hour tz z).

(** What the clock must satisfy for such a call: every reading at least a
    day after the epoch, with the same room below the end of the range. *)
Definition clock_ok (clock : nat -> Z) (d : Z) : Prop :=
  forall i, msPerDay <= clock i /\ clock i + msPerDay + Z.max 0 d * msPerMinute <= maxTime.

(** [z] can be the tail of the queue of a kind when [g] more entries are
    to be appended. *)
Definition room_minute (g : nat) (z : Z) : Prop :=
  0 < z /\ z + Z.of_nat g * msPerMinute <= maxTime.

Definition room_second (g : nat) (z : Z) : Prop :=
  0 < z /\ z + Z.of_nat g * msPerSecond <= maxTime.

Definition room_hour (tz : zone) (g : nat) (z : Z) : Prop :=
  0 < z <= maxTime /\ on_hour tz z.

(** [z] and the [g] instants that follow it at distance [step] lie
    between [lo] and [hi]. *)
Definition within (lo hi step : Z) (g : nat) (z : Z) : Prop :=
  lo <= z /\ z + Z.of_nat g * step <= hi.

(** [z] lies a day after [lo] and, with room for [d] more minutes, a day
    before [hi]. *)
Definition inside (lo hi d z : Z) : Prop :=
  lo + msPerDay <= z /\ z + msPerDay + Z.max 0 d * msPerMinute <= hi.

(** The largest number of entries a call with depth [d] can append. *)
Definition depth_bound (d : Z) : nat := Z.to_nat (Z.max 0 d).

(** ** More vocabulary: seconds, stamps, runs of entries *)

(** A result [v] of [nextSecond] at [x]: no milliseconds, after [x] and at
    most a second later. *)
Definition is_next_second_start (tz : zone) (x : Z) (v : jsnum) : Prop :=
  exists r, v = Num r /\ msFromTime (LocalTime tz r) = 0 /\ x < r <= x + 1000.

(** The text of five fields with slashes between them. *)
Definition stamp (y m d h mi : string) : string :=
  (y ++ "/" ++ m ++ "/" ++ d ++ "/" ++ h ++ "/" ++ mi)%string.

(** The [g] entries that follow [z] when each is computed from the one
    before by [next]. *)
Fixpoint chain (next : Z -> Z) (g : nat) (z : Z) : list Z :=
  match g with
  | O => []
  | S g' => next z :: chain next g' (next z)
  end.

(** [z], [z + step], [z + 2 step], ... : [n] entries. *)
Fixpoint progression (step : Z) (n : nat) (z : Z) : list Z :=
  match n with
  | O => []
  | S n' => z :: progression step n' (z + step)
  end.

(** * Properties *)

(** ** The calendar of the model is the ECMAScript calendar *)

Lemma DayFromYear_succ (y : Z) : DayFromYear (y + 1) = DayFromYear y + DaysInYear y.
Proof.
  unfold DayFromYear, DaysInYear, is_leap.
  destruct (y mod 4 =? 0) eqn:E4; cbn [negb];
    [destruct (y mod 100 =? 0) eqn:E100; cbn [negb];
       [destruct (y mod 400 =? 0) eqn:E400; cbn [negb]|]|];
    rewrite ?Z.eqb_eq, ?Z.eqb_neq in *;
    Z.div_mod_to_equations; lia.
Qed.

Lemma DayFromYear_mono (y1 y2 : Z) : y1 <= y2 -> DayFromYear y1 <= DayFromYear y2.
Proof.
  intros H. replace y2 with (y1 + Z.of_nat (Z.to_nat (y2 - y1))) by lia.
  induction (Z.to_nat (y2 - y1)) as [|n IH].
  - rewrite Z.add_0_r. lia.
  - replace (y1 + Z.of_nat (S n)) with (y1 + Z.of_nat n + 1) by lia.
    rewrite DayFromYear_succ. unfold DaysInYear. destruct (is_leap _); lia.
Qed.

(** YearFromTime(t) is the largest year whose first day is not after
    [Day t]. *)
Lemma YearFromDay_spec (d : Z) :
  DayFromYear (YearFromDay d) <= d < DayFromYear (YearFromDay d + 1).
Proof.
  unfold YearFromDay.
  destruct (d <? DayFromYear (1970 + d * 400 / 146097)) eqn:E1;
    [|destruct (DayFromYear (1970 + d * 400 / 146097 + 1) <=? d) eqn:E2];
    rewrite ?Z.ltb_lt, ?Z.ltb_ge, ?Z.leb_le, ?Z.leb_gt in *;
    unfold DayFromYear in *; Z.div_mod_to_equations; lia.
Qed.

Lemma YearFromDay_largest (d y : Z) : DayFromYear y <= d -> y <= YearFromDay d.
Proof.
  intros H. destruct (Z_le_gt_dec y (YearFromDay d)) as [|G]; [assumption|].
  pose proof (YearFromDay_spec d) as [_ Hlt].
  pose proof (DayFromYear_mono (YearFromDay d + 1) y ltac:(lia)). lia.
Qed.

(** The definition of YearFromTime in ECMAScript: the largest year whose
    start is not after [t]. *)
Lemma YearFromTime_spec (t : Z) :
  TimeFromYear (YearFromTime t) <= t < TimeFromYear (YearFromTime t + 1) /\
  (forall y, TimeFromYear y <= t -> y <= YearFromTime t).
Proof.
  unfold TimeFromYear, YearFromTime.
  pose proof (YearFromDay_spec (Day t)) as [H1 H2]. split.
  - unfold Day, msPerDay in *. Z.div_mod_to_equations. lia.
  - intros y Hy. apply YearFromDay_largest.
    unfold Day, msPerDay in *. Z.div_mod_to_equations. lia.
Qed.

Lemma DayWithinYear_range (t : Z) :
  0 <= DayWithinYear t < DaysInYear (YearFromTime t).
Proof.
  unfold DayWithinYear, YearFromTime.
  pose proof (YearFromDay_spec (Day t)) as [H1 H2].
  rewrite DayFromYear_succ in H2. lia.
Qed.

(** ** Arithmetic of the time fields *)

Ltac unfold_time :=
  unfold LocalTime, fixed, HourFromTime, MinFromTime, SecFromTime, msFromTime,
    TimeWithinDay, Day, msPerDay, msPerHour, msPerMinute, msPerSecond, maxTime in *.

Ltac time_arith := unfold_time; Z.div_mod_to_equations; lia.

Lemma time_fields (t : Z) :
  t = Day t * msPerDay + HourFromTime t * msPerHour + MinFromTime t * msPerMinute
      + SecFromTime t * msPerSecond + msFromTime t.
Proof. time_arith. Qed.

Lemma time_fields_range (t : Z) :
  0 <= HourFromTime t <= 23 /\ 0 <= MinFromTime t <= 59 /\
  0 <= SecFromTime t <= 59 /\ 0 <= msFromTime t <= 999.
Proof. time_arith. Qed.

Lemma month_of_yearday_range (dwy lp : Z) : 0 <= month_of_yearday dwy lp <= 11.
Proof.
  unfold month_of_yearday.
  repeat match goal with |- context [if ?c then _ else _] => destruct c end; lia.
Qed.

Lemma MonthFromTime_range (t : Z) : 0 <= MonthFromTime t <= 11.
Proof. apply month_of_yearday_range. Qed.

Lemma DateFromTime_range (t : Z) : 1 <= DateFromTime t <= 31.
Proof.
  unfold DateFromTime, MonthFromTime.
  pose proof (DayWithinYear_range t) as H.
  unfold DaysInYear in H. unfold InLeapYear.
  destruct (is_leap (YearFromTime t));
    unfold month_of_yearday, days_before_month;
    repeat match goal with
           | |- context [if ?a <? ?b then _ else _] =>
               destruct (Z.ltb_spec a b); cbn [Z.eqb Pos.eqb]
           end; lia.
Qed.

(** MakeDay undoes the split of a time value into year, month and date,
    also when the date is moved by [k] days. *)
Lemma MakeDay_fields (t k : Z) :
  MakeDay (Num (YearFromTime t)) (Num (MonthFromTime t)) (Num (DateFromTime t + k))
  = Num (Day t + k).
Proof.
  unfold MakeDay, day_of_month_start. f_equal.
  pose proof (MonthFromTime_range t) as Hm.
  rewrite Z.div_small, Z.mod_small, Z.add_0_r by lia.
  unfold DateFromTime, InLeapYear, DayWithinYear. lia.
Qed.

Lemma Num_inj (a b : Z) : Num a = Num b -> a = b.
Proof. congruence. Qed.

Lemma TimeClip_valid (t : Z) : - maxTime <= t <= maxTime -> TimeClip (Num t) = Num t.
Proof.
  intros H. unfold TimeClip.
  destruct (Z.leb_spec (Z.abs t) maxTime); [reflexivity | lia].
Qed.

Lemma TimeClip_invalid (t : Z) : maxTime < t \/ t < - maxTime -> TimeClip (Num t) = NaN.
Proof.
  intros H. unfold TimeClip.
  destruct (Z.leb_spec (Z.abs t) maxTime); [lia | reflexivity].
Qed.

Lemma truthy_nonzero (x : Z) : x <> 0 -> truthy (VNum (Num x)) = true.
Proof. intros H. simpl. destruct (Z.eqb_spec x 0); [contradiction | reflexivity]. Qed.

Lemma or_now_nonzero (now x : Z) : x <> 0 -> or_now now (VNum (Num x)) = VNum (Num x).
Proof. intros H. unfold or_now. now rewrite truthy_nonzero. Qed.

(** [Math.round(m / 60)] rounds half up at 30. *)
Lemma Math_round_minutes (m : Z) :
  0 <= m <= 59 -> Math_round_quot (Num m) 60 = Num (if m <? 30 then 0 else 1).
Proof.
  intros H. unfold Math_round_quot. f_equal.
  destruct (Z.ltb_spec m 30); Z.div_mod_to_equations; lia.
Qed.

(** ** Zones whose offset is steady over an interval *)

Lemma steady_fixed (off lo hi : Z) : steady (fixed off) off lo hi.
Proof. intros t _. split; reflexivity. Qed.

Lemma steady_narrow (tz : zone) (off lo hi lo' hi' : Z) :
  steady tz off lo hi -> lo <= lo' -> hi' <= hi -> steady tz off lo' hi'.
Proof. intros H Hl Hh t Ht. apply H. lia. Qed.

(** Before its transition a zone is steady at the old offset, and from
    the end of the repeated local times on it is steady at the new one. *)
Lemma steady_before (switch before after lo hi : Z) :
  hi < switch -> steady (transition switch before after) before lo hi.
Proof.
  intros H t Ht. unfold transition. split.
  - destruct (Z.ltb_spec t switch); [reflexivity | lia].
  - destruct (Z.ltb_spec (t + before) (switch + Z.max before after)); [reflexivity | lia].
Qed.

Lemma steady_after (switch before after lo hi : Z) :
  switch + Z.max 0 (before - after) <= lo ->
  steady (transition switch before after) after lo hi.
Proof.
  intros H t Ht. unfold transition. split.
  - destruct (Z.ltb_spec t switch); [lia | reflexivity].
  - destruct (Z.ltb_spec (t + after) (switch + Z.max before after)); [lia | reflexivity].
Qed.

(** The two examples of the standard for UTC(t) in New York: 01:30 on
    2017-11-05, a local time that occurs twice, is read at UTC-4, and 02:30
    on 2017-03-12, a local time that does not occur, is read at UTC-5. *)
Example UTC_of_repeated_and_skipped_times :
  UTC (transition 1509861600000 (-14400000) (-18000000)) (Num 1509845400000)
  = Num 1509859800000 /\
  UTC (transition 1489302000000 (-18000000) (-14400000)) (Num 1489285800000)
  = Num 1489303800000.
Proof. split; reflexivity. Qed.

(** ** Closed forms of the calculators

    [tz] is any zone whose offset is [off] from the instant [lo] to the
    instant [hi]; the lemmas are about instants whose computation stays
    between the two. *)

Section Calculators.

Variable tz : zone.
Variables off now lo hi : Z.
Hypothesis Hz : steady tz off lo hi.

Lemma LocalTime_steady (t : Z) : lo <= t <= hi -> LocalTime tz t = t + off.
Proof. intros Ht. unfold LocalTime. now rewrite (proj1 (Hz t Ht)). Qed.

Lemma UTC_steady (v : Z) : lo <= v - off <= hi -> UTC tz (Num v) = Num (v - off).
Proof.
  intros Hv. unfold UTC. do 2 f_equal.
  destruct (Hz (v - off) Hv) as [_ H].
  replace (v - off + off) with v in H by lia. exact H.
Qed.

Lemma setMinutes_next (x : Z) :
  lo <= x -> x + msPerMinute <= hi ->
  - maxTime <= x -> x + msPerMinute <= maxTime ->
  setMinutes tz (Num x) (js_add (getMinutes tz (Num x)) (Num 1)) None None
  = Num (x + msPerMinute).
Proof.
  intros Hl Hh Hlo Hhi. cbn [setMinutes getMinutes on_time js_add arg_or MakeTime MakeDate].
  rewrite (LocalTime_steady x) by (unfold msPerMinute in *; lia).
  rewrite UTC_steady by time_arith.
  rewrite TimeClip_valid by time_arith.
  f_equal. time_arith.
Qed.

(** The calculator at whatever instant [date || now] turns out to be. *)
Lemma nextMinute_at (date : value) (x : Z) :
  or_now now date = VNum (Num x) ->
  lo <= x -> x + msPerMinute <= hi ->
  - maxTime <= x -> x + msPerMinute <= maxTime ->
  nextMinute tz now date = Num (((x + off) / msPerMinute + 1) * msPerMinute - off).
Proof.
  intros Hv Hl Hh Hlo Hhi. unfold nextMinute, Date_copy, new_Date.
  rewrite Hv. cbn [ToNumber].
  rewrite TimeClip_valid by (unfold msPerMinute in *; lia).
  rewrite setMinutes_next by assumption.
  cbn [setSeconds arg_or MakeTime MakeDate].
  rewrite (LocalTime_steady (x + msPerMinute)) by (unfold msPerMinute in *; lia).
  rewrite UTC_steady by time_arith.
  rewrite TimeClip_valid by time_arith.
  f_equal. time_arith.
Qed.

Lemma nextMinute_value (x : Z) :
  x <> 0 -> lo <= x -> x + msPerMinute <= hi ->
  - maxTime <= x -> x + msPerMinute <= maxTime ->
  nextMinute tz now (VNum (Num x))
  = Num (((x + off) / msPerMinute + 1) * msPerMinute - off).
Proof.
  intros Hnz. apply nextMinute_at, or_now_nonzero. assumption.
Qed.

Lemma nextSecond_value (x : Z) :
  x <> 0 -> lo <= x -> x + msPerSecond <= hi ->
  - maxTime <= x -> x + msPerSecond <= maxTime ->
  nextSecond tz now (VNum (Num x))
  = Num (((x + off) / msPerSecond + 1) * msPerSecond - off).
Proof.
  intros Hnz Hl Hh Hlo Hhi. unfold nextSecond, Date_copy, new_Date.
  rewrite or_now_nonzero by assumption. cbn [ToNumber].
  rewrite TimeClip_valid by (unfold msPerSecond in *; lia).
  cbn [setSeconds getSeconds on_time js_add arg_or MakeTime MakeDate].
  rewrite (LocalTime_steady x) by (unfold msPerSecond in *; lia).
  assert (Day (x + off) * msPerDay +
          (HourFromTime (x + off) * msPerHour + MinFromTime (x + off) * msPerMinute +
           (SecFromTime (x + off) + 1) * msPerSecond + msFromTime (x + off))
          = x + msPerSecond + off) as ->
    by (pose proof (time_fields (x + off)); lia).
  rewrite UTC_steady by (unfold msPerSecond in *; lia).
  replace (x + msPerSecond + off - off) with (x + msPerSecond) by lia.
  rewrite TimeClip_valid by (unfold msPerSecond in *; lia).
  cbn [setMilliseconds MakeTime MakeDate].
  rewrite (LocalTime_steady (x + msPerSecond)) by (unfold msPerSecond in *; lia).
  rewrite UTC_steady by time_arith.
  rewrite TimeClip_valid by time_arith.
  f_equal. time_arith.
Qed.

(** [date.setDate(date.getDate() + 1)] moves a date one day ahead. *)
Lemma setDate_next (x : Z) :
  lo <= x -> x + msPerDay <= hi ->
  - maxTime <= x -> x + msPerDay <= maxTime ->
  setDate tz (Num x) (js_add (getDate tz (Num x)) (Num 1)) = Num (x + msPerDay).
Proof.
  intros Hl Hh Hlo Hhi. cbn [setDate getDate on_time js_add].
  rewrite (LocalTime_steady x) by (unfold msPerDay in *; lia).
  rewrite MakeDay_fields. cbn [MakeDate].
  rewrite UTC_steady by time_arith.
  rewrite TimeClip_valid by time_arith.
  f_equal. time_arith.
Qed.

Lemma nextday_value (x : Z) :
  x <> 0 -> lo <= x -> x + msPerDay <= hi ->
  - maxTime <= x -> x + msPerDay <= maxTime ->
  nextday tz now (VNum (Num x)) = Num ((Day (x + off) + 1) * msPerDay - off).
Proof.
  intros Hnz Hl Hh Hlo Hhi. unfold nextday, Date_copy, new_Date.
  rewrite or_now_nonzero by assumption. cbn [ToNumber].
  rewrite TimeClip_valid by (unfold msPerDay in *; lia).
  rewrite setDate_next by assumption.
  cbn [setHours arg_or MakeTime MakeDate].
  rewrite (LocalTime_steady (x + msPerDay)) by (unfold msPerDay in *; lia).
  rewrite UTC_steady by time_arith.
  rewrite TimeClip_valid by time_arith.
  cbn [setMinutes arg_or MakeTime MakeDate].
  rewrite LocalTime_steady by time_arith.
  rewrite UTC_steady by time_arith.
  rewrite TimeClip_valid by time_arith.
  f_equal. time_arith.
Qed.

Lemma roundedHour_steady (x : Z) :
  lo <= x <= hi -> roundedHour tz x = roundedHour (fixed off) x.
Proof. intros H. unfold roundedHour. rewrite (LocalTime_steady x H). reflexivity. Qed.

Lemma nextHour_value (x : Z) :
  x <> 0 -> lo <= x - msPerDay -> x + msPerDay <= hi ->
  - maxTime + msPerDay <= x <= maxTime - msPerDay ->
  nextHour tz now (VNum (Num x))
  = Num (if 23 <? roundedHour (fixed off) x
         then (Day (x + off) + 1) * msPerDay - off
         else Day (x + off) * msPerDay + roundedHour (fixed off) x * msPerHour - off).
Proof.
  intros Hnz Hl Hh Hr. unfold nextHour, Date_copy, new_Date.
  rewrite or_now_nonzero by assumption. cbn [ToNumber].
  rewrite TimeClip_valid by (unfold msPerDay in *; lia).
  cbn [getHours getMinutes on_time].
  rewrite (LocalTime_steady x) by (unfold msPerDay in *; lia).
  pose proof (time_fields_range (x + off)) as (Hh' & Hm' & _).
  pose proof (time_fields (x + off)) as F.
  rewrite Math_round_minutes by lia. cbn [js_add].
  change (HourFromTime (x + off) + (if MinFromTime (x + off) <? 30 then 0 else 1))
    with (roundedHour (fixed off) x).
  assert (0 <= roundedHour (fixed off) x - HourFromTime (x + off) <= 1) as Hd
    by (unfold roundedHour, LocalTime, fixed; destruct (MinFromTime (x + off) <? 30); lia).
  unfold js_gt. cbn [js_lt].
  destruct (23 <? roundedHour (fixed off) x) eqn:E.
  - apply Z.ltb_lt in E.
    assert (HourFromTime (x + off) = 23) as H23 by lia.
    cbn [setHours arg_or MakeTime MakeDate].
    rewrite (LocalTime_steady x) by (unfold msPerDay in *; lia).
    match goal with |- context [UTC tz (Num ?v)] =>
      replace v with (x - 23 * msPerHour + off) by lia
    end.
    rewrite UTC_steady by (unfold msPerDay, msPerHour in *; lia).
    replace (x - 23 * msPerHour + off - off) with (x - 23 * msPerHour) by lia.
    rewrite TimeClip_valid by (unfold msPerDay, msPerHour, maxTime in *; lia).
    rewrite setDate_next by (unfold msPerDay, msPerHour, maxTime in *; lia).
    cbn [setMinutes arg_or MakeTime MakeDate].
    rewrite LocalTime_steady by (unfold msPerDay, msPerHour in *; lia).
    clear Hd E. rewrite UTC_steady by time_arith.
    rewrite TimeClip_valid by time_arith.
    f_equal. clear F Hh' Hm'. time_arith.
  - apply Z.ltb_ge in E.
    cbn [setHours arg_or MakeTime MakeDate].
    rewrite (LocalTime_steady x) by (unfold msPerDay in *; lia).
    match goal with |- context [UTC tz (Num ?v)] =>
      replace v
        with (x + (roundedHour (fixed off) x - HourFromTime (x + off)) * msPerHour + off)
        by lia
    end.
    rewrite UTC_steady by (unfold msPerDay, msPerHour in *; lia).
    match goal with |- context [TimeClip (Num ?v)] =>
      replace v with (x + (roundedHour (fixed off) x - HourFromTime (x + off)) * msPerHour)
        by lia
    end.
    rewrite TimeClip_valid by (unfold msPerDay, msPerHour, maxTime in *; lia).
    cbn [setMinutes arg_or MakeTime MakeDate].
    rewrite LocalTime_steady by (unfold msPerDay, msPerHour in *; lia).
    assert (Day (x + (roundedHour (fixed off) x - HourFromTime (x + off)) * msPerHour + off)
            = Day (x + off) /\
            HourFromTime (x + (roundedHour (fixed off) x - HourFromTime (x + off)) * msPerHour + off)
            = roundedHour (fixed off) x) as [-> ->].
    { unfold roundedHour, LocalTime, fixed in *.
      destruct (MinFromTime (x + off) <? 30).
      - rewrite !Z.add_0_r, Z.sub_diag, Z.mul_0_l, Z.add_0_r. split; reflexivity.
      - replace (HourFromTime (x + off) + 1 - HourFromTime (x + off)) with 1 in * by lia.
        clear Hd Hm' F. time_arith. }
    assert (x - msPerHour <= Day (x + off) * msPerDay + roundedHour (fixed off) x * msPerHour - off
            <= x + msPerHour) as Hb.
    { clear Hd. unfold roundedHour, LocalTime, fixed in *.
      destruct (MinFromTime (x + off) <? 30) eqn:E30;
        [apply Z.ltb_lt in E30 | apply Z.ltb_ge in E30]; time_arith. }
    match goal with |- context [UTC tz (Num ?v)] =>
      replace v with (Day (x + off) * msPerDay + roundedHour (fixed off) x * msPerHour) by lia
    end.
    rewrite UTC_steady by (unfold msPerDay, msPerHour in *; lia).
    rewrite TimeClip_valid by (unfold msPerDay, msPerHour, maxTime in *; lia).
    reflexivity.
Qed.

(** An instant on a local hour boundary that is valid and not the epoch is
    left where it is by [nextHour]. *)
Lemma nextHour_fixed_point (x : Z) :
  x <> 0 -> lo <= x <= hi -> - maxTime <= x <= maxTime ->
  MinFromTime (x + off) = 0 -> SecFromTime (x + off) = 0 -> msFromTime (x + off) = 0 ->
  nextHour tz now (VNum (Num x)) = Num x.
Proof.
  intros Hnz Hw Hr Hm Hs Hms. unfold nextHour, Date_copy, new_Date.
  rewrite or_now_nonzero by assumption. cbn [ToNumber].
  rewrite TimeClip_valid by assumption.
  cbn [getHours getMinutes on_time]. rewrite (LocalTime_steady x Hw). rewrite Hm.
  change (Math_round_quot (Num 0) 60) with (Num 0). cbn [js_add].
  rewrite Z.add_0_r. unfold js_gt. cbn [js_lt].
  pose proof (time_fields_range (x + off)) as (Hh & _).
  destruct (Z.ltb_spec 23 (HourFromTime (x + off))); [lia|].
  pose proof (time_fields (x + off)) as F. rewrite Hm, Hs, Hms in F.
  cbn [setHours arg_or MakeTime MakeDate]. rewrite (LocalTime_steady x Hw), Hm, Hs, Hms.
  match goal with |- context [UTC tz (Num ?v)] => replace v with (x + off) by lia end.
  rewrite UTC_steady by lia.
  replace (x + off - off) with x by lia.
  rewrite TimeClip_valid by assumption.
  cbn [setMinutes arg_or MakeTime MakeDate]. rewrite (LocalTime_steady x Hw).
  match goal with |- context [UTC tz (Num ?v)] => replace v with (x + off) by lia end.
  rewrite UTC_steady by lia.
  replace (x + off - off) with x by lia.
  apply TimeClip_valid. assumption.
Qed.

End Calculators.

(** ** Claims about the calculators *)

Lemma nextHour_rule (tz : zone) (off now ref : Z) :
  steady tz off (ref - msPerDay) (ref + msPerDay) ->
  ref <> 0 -> - maxTime + msPerDay <= ref <= maxTime - msPerDay ->
  is_rounded_hour tz ref (nextHour tz now (VNum (Num ref))).
Proof.
  intros Hz Hnz Hr. unfold is_rounded_hour.
  rewrite (nextHour_value tz off now _ _ Hz) by (assumption || lia).
  rewrite (roundedHour_steady tz off _ _ Hz) by (unfold msPerDay; lia).
  rewrite (LocalTime_steady tz off _ _ Hz ref) by (unfold msPerDay; lia).
  pose proof (time_fields_range (ref + off)) as (Hh & Hm & _).
  assert (0 <= roundedHour (fixed off) ref - HourFromTime (ref + off) <= 1) as Hd
    by (unfold roundedHour, LocalTime, fixed;
        destruct (MinFromTime (ref + off) <? 30); lia).
  assert (roundedHour (fixed off) ref = HourFromTime (ref + off) ->
          MinFromTime (ref + off) < 30) as Hdown
    by (unfold roundedHour, LocalTime, fixed;
        destruct (Z.ltb_spec (MinFromTime (ref + off)) 30); lia).
  generalize dependent (roundedHour (fixed off) ref). intros rh Hd Hdown.
  destruct (23 <? rh) eqn:E; [apply Z.ltb_lt in E | apply Z.ltb_ge in E];
    (eexists; split; [reflexivity|]);
    rewrite !(LocalTime_steady tz off _ _ Hz) by time_arith;
    time_arith.
Qed.

(** C1, as amended: in a zone that is steady within a day
    of [ref], for every instant [ref] other than the epoch 0 that lies at
    least one day inside the range of Date, [nextHour ref] is, in local
    time, the rounded hour (hour + 1 from minute 30 on) of [ref]'s day with
    minutes, seconds and milliseconds zeroed, or hour 0 of the following day
    when the rounded hour exceeds 23.  Where that offset is a whole number
    of hours, nextHour(2023-06-15T10:10:00Z) = 2023-06-15T10:00:00Z and
    nextHour(2023-06-15T23:45:00Z) = 2023-06-16T00:00:00Z. *)
Theorem nextHour_rounds_to_local_hour (tz : zone) (off now : Z) :
  (forall ref, steady tz off (ref - msPerDay) (ref + msPerDay) ->
     ref <> 0 -> - maxTime + msPerDay <= ref <= maxTime - msPerDay ->
     is_rounded_hour tz ref (nextHour tz now (VNum (Num ref)))) /\
  (forall k, off = k * msPerHour ->
     (steady tz off (ref_10_10 - msPerDay) (ref_10_10 + msPerDay) ->
      nextHour tz now (VNum (Num ref_10_10)) = Num 1686823200000) /\
     (steady tz off (ref_23_45 - msPerDay) (ref_23_45 + msPerDay) ->
      nextHour tz now (VNum (Num ref_23_45)) = Num 1686873600000)).
Proof.
  split.
  - intros ref. apply nextHour_rule.
  - intros k ->. split; intros Hz.
    + rewrite (nextHour_value _ _ now _ _ Hz)
        by (unfold ref_10_10, maxTime, msPerDay; lia).
      f_equal. unfold roundedHour.
      assert (MinFromTime (LocalTime (fixed (k * msPerHour)) ref_10_10) = 10) as ->
        by (unfold ref_10_10; time_arith).
      change (10 <? 30) with true. cbv iota. rewrite Z.add_0_r.
      pose proof (time_fields_range (LocalTime (fixed (k * msPerHour)) ref_10_10)) as (Hh & _).
      match goal with |- context [23 <? ?h] => destruct (Z.ltb_spec 23 h); [lia|] end.
      clear Hz. unfold ref_10_10. time_arith.
    + rewrite (nextHour_value _ _ now _ _ Hz)
        by (unfold ref_23_45, maxTime, msPerDay; lia).
      f_equal. unfold roundedHour.
      assert (MinFromTime (LocalTime (fixed (k * msPerHour)) ref_23_45) = 45) as ->
        by (unfold ref_23_45; time_arith).
      change (45 <? 30) with false.
      cbv iota. clear Hz.
      match goal with |- context [23 <? ?h] =>
        destruct (Z.ltb_spec 23 h); unfold ref_23_45 in *; time_arith
      end.
Qed.

Lemma nextHour_rounds_to_local_hour_witness :
  is_rounded_hour new_york_march ref_23_45 (nextHour new_york_march 5 (VNum (Num ref_23_45))) /\
  nextHour new_york_march 5 (VNum (Num ref_10_10)) = Num 1686823200000.
Proof.
  split.
  - apply (proj1 (nextHour_rounds_to_local_hour new_york_march (-14400000) 5) ref_23_45).
    + apply steady_after. unfold ref_23_45, msPerDay. lia.
    + unfold ref_23_45. lia.
    + unfold ref_23_45, maxTime, msPerDay. lia.
  - apply (proj1 (proj2 (nextHour_rounds_to_local_hour new_york_march (-14400000) 5)
                        (-4) eq_refl)).
    apply steady_after. unfold ref_10_10, msPerDay. lia.
Defined.

(** C1 fails as stated: with the local zone 5 h 30 min east of UTC,
    nextHour(2023-06-15T10:10:00Z) is 2023-06-15T10:30:00Z (16:00 local),
    not 10:00:00Z; at the last valid instant of Date the rule has no result
    at all where the zone is UTC; and in New York at 01:45 on 2023-03-12,
    the night the clocks go forward, the rounded hour is 2 but the result is
    03:00 local time. *)
Lemma nextHour_counterexample :
  nextHour (fixed 19800000) 5 (VNum (Num ref_10_10)) = Num 1686825000000 /\
  Num 1686825000000 <> Num 1686823200000 /\
  ~ is_rounded_hour (fixed 0) (maxTime - 900000)
      (nextHour (fixed 0) 5 (VNum (Num (maxTime - 900000)))) /\
  nextHour new_york_march 5 (VNum (Num 1678603500000)) = Num 1678604400000 /\
  roundedHour new_york_march 1678603500000 = 2 /\
  HourFromTime (LocalTime new_york_march 1678604400000) = 3 /\
  ~ is_rounded_hour new_york_march 1678603500000
      (nextHour new_york_march 5 (VNum (Num 1678603500000))).
Proof.
  split; [vm_compute; reflexivity|]. split; [discriminate|].
  split; [intros (r & H & _); vm_compute in H; discriminate|].
  repeat (split; [vm_compute; reflexivity|]).
  intros (r & H & _ & _ & _ & Hh). vm_compute in H. apply Num_inj in H. subst r.
  vm_compute in Hh. destruct Hh as [_ Hh]. discriminate.
Qed.

(** C4, as amended: in a zone that is steady from [x] to
    [x + 60000], for every instant [x] other than the epoch 0 whose
    successor [x + 60000] is still in the range of Date, [nextMinute x] has
    zero seconds and milliseconds and lies in (x, x + 60000]. *)
Theorem nextMinute_in_next_minute (tz : zone) (off now x : Z) :
  steady tz off x (x + 60000) ->
  x <> 0 -> - maxTime <= x -> x + 60000 <= maxTime ->
  is_next_minute_start tz x (nextMinute tz now (VNum (Num x))).
Proof.
  intros Hz Hnz Hlo Hhi. unfold is_next_minute_start.
  rewrite (nextMinute_value tz off now _ _ Hz) by (assumption || unfold msPerMinute; lia).
  eexists; split; [reflexivity|].
  rewrite !(LocalTime_steady tz off _ _ Hz) by time_arith.
  time_arith.
Qed.

Lemma nextMinute_in_next_minute_witness :
  is_next_minute_start new_york_november ref_10_10
    (nextMinute new_york_november 5 (VNum (Num ref_10_10))).
Proof.
  apply (nextMinute_in_next_minute new_york_november (-14400000) 5 ref_10_10).
  - apply steady_before. unfold ref_10_10. lia.
  - unfold ref_10_10. lia.
  - unfold ref_10_10, maxTime. lia.
  - unfold ref_10_10, maxTime. lia.
Defined.

(** C4 fails as stated: at the last valid instant of Date the next minute
    is not a valid instant and the result is NaN; at the epoch 0 the result
    is the minute after the clock reading; and in New York at 01:30 standard
    time on 2023-11-05, in the hour the clocks repeat, the result is 01:31
    daylight time, 59 minutes before [x]. *)
Lemma nextMinute_counterexample :
  ~ is_next_minute_start (fixed 0) maxTime (nextMinute (fixed 0) ref_10_10 (VNum (Num maxTime))) /\
  ~ is_next_minute_start (fixed 0) 0 (nextMinute (fixed 0) ref_10_10 (VNum (Num 0))) /\
  nextMinute new_york_november 5 (VNum (Num 1699165800000)) = Num 1699162260000 /\
  ~ is_next_minute_start new_york_november 1699165800000
      (nextMinute new_york_november 5 (VNum (Num 1699165800000))).
Proof.
  split; [intros (r & H & _ & _ & Hr); vm_compute in H; discriminate|].
  split; [intros (r & H & _ & _ & Hr); vm_compute in H; injection H as <-; lia|].
  split; [vm_compute; reflexivity|].
  intros (r & H & _ & _ & Hr). vm_compute in H. injection H as <-. lia.
Qed.

(** C5, as amended: in a zone that is steady from [x] to
    [x] plus one day, for every instant [x] other than the epoch 0 such that
    [x] plus one day is still in the range of Date, [nextday x] is
    00:00:00.000 local time of the calendar day following [x]'s day. *)
Theorem nextday_is_next_local_midnight (tz : zone) (off now x : Z) :
  steady tz off x (x + msPerDay) ->
  x <> 0 -> - maxTime <= x -> x + msPerDay <= maxTime ->
  is_next_local_midnight tz x (nextday tz now (VNum (Num x))).
Proof.
  intros Hz Hnz Hlo Hhi. unfold is_next_local_midnight.
  rewrite (nextday_value tz off now _ _ Hz) by (assumption || lia).
  eexists; split; [reflexivity|].
  rewrite !(LocalTime_steady tz off _ _ Hz) by time_arith.
  time_arith.
Qed.

Lemma nextday_is_next_local_midnight_witness :
  is_next_local_midnight cairo_april ref_23_45 (nextday cairo_april 5 (VNum (Num ref_23_45))).
Proof.
  apply (nextday_is_next_local_midnight cairo_april 10800000 5 ref_23_45).
  - apply steady_after. unfold ref_23_45. lia.
  - unfold ref_23_45. lia.
  - unfold ref_23_45, maxTime. lia.
  - unfold ref_23_45, maxTime, msPerDay. lia.
Defined.

(** C5 fails as stated: at the last valid instant of Date the following
    day is out of range and the result is NaN; at the epoch 0 the result is
    the midnight after the clock reading; and in Cairo at noon of
    2023-04-27, the day before the clocks go forward at midnight, the result
    is 01:00 local time of the 28th, the midnight itself being skipped. *)
Lemma nextday_counterexample :
  ~ is_next_local_midnight (fixed 0) maxTime (nextday (fixed 0) ref_10_10 (VNum (Num maxTime))) /\
  ~ is_next_local_midnight (fixed 0) 0 (nextday (fixed 0) ref_10_10 (VNum (Num 0))) /\
  nextday cairo_april 5 (VNum (Num 1682589600000)) = Num 1682632800000 /\
  TimeWithinDay (LocalTime cairo_april 1682632800000) = 3600000 /\
  ~ is_next_local_midnight cairo_april 1682589600000
      (nextday cairo_april 5 (VNum (Num 1682589600000))).
Proof.
  split; [intros (r & H & Hd & _); vm_compute in H; discriminate|].
  split; [intros (r & H & Hd & _); vm_compute in H; injection H as <-;
          vm_compute in Hd; discriminate|].
  split; [vm_compute; reflexivity|]. split; [vm_compute; reflexivity|].
  intros (r & H & _ & Ht). vm_compute in H. injection H as <-.
  vm_compute in Ht. discriminate.
Qed.

(** X5 (C10 away from the epoch): in a zone that is steady
    within a day of [x], where [nextHour x] is not the instant 0, applying
    [nextHour] again changes nothing. *)
Lemma nextHour_idempotent (tz : zone) (off now x : Z) :
  steady tz off (x - msPerDay) (x + msPerDay) ->
  x <> 0 -> - maxTime + msPerDay <= x <= maxTime - msPerDay ->
  nextHour tz now (VNum (Num x)) <> Num 0 ->
  nextHour tz now (VNum (nextHour tz now (VNum (Num x)))) = nextHour tz now (VNum (Num x)).
Proof.
  intros Hz Hnz Hr Hne.
  rewrite (nextHour_value tz off now _ _ Hz) in * by (assumption || lia).
  pose proof (time_fields_range (x + off)) as (Hh & Hmm & _).
  assert (0 <= roundedHour (fixed off) x - HourFromTime (x + off) <= 1) as Hd
    by (unfold roundedHour, LocalTime, fixed;
        destruct (MinFromTime (x + off) <? 30); lia).
  assert (roundedHour (fixed off) x = HourFromTime (x + off) ->
          MinFromTime (x + off) < 30) as Hdown
    by (unfold roundedHour, LocalTime, fixed;
        destruct (Z.ltb_spec (MinFromTime (x + off)) 30); lia).
  generalize dependent (roundedHour (fixed off) x). intros rh Hne Hd Hdown.
  destruct (23 <? rh) eqn:E; [apply Z.ltb_lt in E | apply Z.ltb_ge in E];
    apply (nextHour_fixed_point tz off now _ _ Hz);
    try congruence; time_arith.
Qed.

(** C10 at the epoch: the instant 0 lies on an hour boundary, yet
    [nextHour] treats it as a missing argument and answers for the clock
    reading instead: with the clock at 2023-06-15T10:10:00Z in a UTC zone,
    nextHour(0) is 2023-06-15T10:00:00Z, so 0 is not a fixed point and
    nextHour(nextHour(60000)) differs from nextHour(60000) = 0. *)
Theorem nextHour_epoch_not_fixed :
  (forall tz now, nextHour tz now (VNum (Num 0)) = nextHour tz now VUndef) /\
  MinFromTime (LocalTime (fixed 0) 0) = 0 /\ SecFromTime (LocalTime (fixed 0) 0) = 0 /\
  msFromTime (LocalTime (fixed 0) 0) = 0 /\
  nextHour (fixed 0) ref_10_10 (VNum (Num 0)) = Num 1686823200000 /\
  nextHour (fixed 0) ref_10_10 (VNum (Num 60000)) = Num 0 /\
  nextHour (fixed 0) ref_10_10 (VNum (nextHour (fixed 0) ref_10_10 (VNum (Num 60000)))) = Num 1686823200000.
Proof. repeat split; vm_compute; reflexivity. Qed.

(** ** Invalid instants (C9) *)

Lemma new_Date_not_an_instant (n : jsnum) : not_an_instant n -> new_Date (VNum n) = NaN.
Proof.
  destruct n as [x| | |]; cbn [not_an_instant]; intros H;
    try reflexivity; try contradiction.
  unfold new_Date. cbn [ToNumber]. apply TimeClip_invalid. lia.
Qed.

Lemma or_now_not_an_instant (now : Z) (n : jsnum) :
  not_an_instant n -> or_now now (VNum n) = VNum n.
Proof.
  destruct n as [x| | |]; cbn [not_an_instant]; intros H;
    try reflexivity; try contradiction.
  apply or_now_nonzero. unfold maxTime in H. lia.
Qed.

(** C9, as amended: no function raises an error on an invalid instant.
    For an infinite or out-of-range input every calculator returns NaN and
    [unixToMilitary] returns the text NaN/NaN/NaN/NaN/NaN; for NaN the
    calculators answer as for a missing argument, from the clock, and
    [unixToMilitary] returns the same text. *)
Theorem invalid_instant_yields_NaN (tz : zone) (now : Z) :
  (forall n, not_an_instant n ->
     nextday tz now (VNum n) = NaN /\ nextHour tz now (VNum n) = NaN /\
     nextMinute tz now (VNum n) = NaN /\ nextSecond tz now (VNum n) = NaN /\
     unixToMilitary (VNum n) = NaN_stamp) /\
  nextday tz now (VNum NaN) = nextday tz now VUndef /\
  nextHour tz now (VNum NaN) = nextHour tz now VUndef /\
  nextMinute tz now (VNum NaN) = nextMinute tz now VUndef /\
  nextSecond tz now (VNum NaN) = nextSecond tz now VUndef /\
  unixToMilitary (VNum NaN) = NaN_stamp /\
  unixToMilitary VUndef = NaN_stamp.
Proof.
  split; [|repeat split; reflexivity].
  intros n Hn.
  unfold nextday, nextHour, nextMinute, nextSecond, unixToMilitary.
  rewrite (or_now_not_an_instant now n Hn), (new_Date_not_an_instant n Hn).
  repeat split; reflexivity.
Qed.

Lemma invalid_instant_yields_NaN_witness :
  nextday (fixed 0) 5 (VNum (Num (maxTime + 1))) = NaN /\
  unixToMilitary (VNum PInf) = NaN_stamp.
Proof.
  split.
  - apply (proj1 (invalid_instant_yields_NaN (fixed 0) 5) (Num (maxTime + 1))).
    cbn [not_an_instant]. unfold maxTime. lia.
  - apply (proj1 (invalid_instant_yields_NaN (fixed 0) 5) PInf). exact I.
Defined.

(** C9 fails as stated: on the input Infinity the calculators and the
    encoder return a value, NaN or a text made of NaN, and on the input NaN
    the calculators return an instant computed from the clock. *)
Lemma invalid_instant_counterexample :
  nextday (fixed 0) ref_10_10 (VNum PInf) = NaN /\
  nextHour (fixed 0) ref_10_10 (VNum PInf) = NaN /\
  nextMinute (fixed 0) ref_10_10 (VNum PInf) = NaN /\
  nextSecond (fixed 0) ref_10_10 (VNum PInf) = NaN /\
  unixToMilitary (VNum PInf) = "NaN/NaN/NaN/NaN/NaN"%string /\
  nextMinute (fixed 0) ref_10_10 (VNum NaN) = Num 1686823860000.
Proof. repeat split; vm_compute; reflexivity. Qed.

(** ** Malformed military timestamps (C8) *)










(** ** Decimal texts: printing and reading back *)

Ltac digit_cases k :=
  let H := fresh in
  assert (k = 0 \/ k = 1 \/ k = 2 \/ k = 3 \/ k = 4 \/ k = 5 \/ k = 6 \/ k = 7 \/
          k = 8 \/ k = 9) as H by lia;
  repeat (destruct H as [H | H]); rewrite H.

Lemma digit_char_is_digit (k : Z) : 0 <= k <= 9 -> is_digit (digit_char k) = true.
Proof. intros Hk. digit_cases k; reflexivity. Qed.

Lemma digit_value_digit_char (k : Z) : 0 <= k <= 9 -> digit_value 10 (digit_char k) = Some k.
Proof. intros Hk. digit_cases k; reflexivity. Qed.

Lemma nat_digits_chars (fuel : nat) (n : Z) (rest : string) :
  forall_chars is_digit rest = true -> forall_chars is_digit (nat_digits fuel n rest) = true.
Proof.
  revert n rest. induction fuel as [|f IH]; intros n rest Hr; [exact Hr|].
  cbn [nat_digits].
  assert (forall_chars is_digit (String (digit_char (n mod 10)) rest) = true) as H.
  { cbn [forall_chars]. rewrite digit_char_is_digit, Hr; [reflexivity|].
    Z.div_mod_to_equations; lia. }
  destruct (n <? 10); [exact H | apply IH; exact H].
Qed.

Lemma take_digits_nat_digits (f : nat) (n : Z) (rest : string) (c : nat) :
  0 <= n < 2 ^ Z.of_nat (S f) ->
  exists k, take_digits 10 (nat_digits (S f) n rest) 0 c = take_digits 10 rest n (S (c + k)).
Proof.
  revert n rest c. induction f as [|f IH]; intros n rest c Hn;
    cbn [nat_digits]; destruct (Z.ltb_spec n 10) as [Hlt|Hge].
  - exists 0%nat. cbn [take_digits].
    rewrite digit_value_digit_char by (Z.div_mod_to_equations; lia).
    rewrite Z.mod_small, Nat.add_0_r by lia. reflexivity.
  - change (2 ^ Z.of_nat 1) with 2 in Hn. lia.
  - exists 0%nat. cbn [take_digits].
    rewrite digit_value_digit_char by (Z.div_mod_to_equations; lia).
    rewrite Z.mod_small, Nat.add_0_r by lia. reflexivity.
  - destruct (IH (n / 10) (String (digit_char (n mod 10)) rest) c) as [k Hk].
    { rewrite (Nat2Z.inj_succ (S f)), Z.pow_succ_r in Hn by lia.
      Z.div_mod_to_equations; lia. }
    exists (S k). cbn [nat_digits] in Hk. rewrite Hk. cbn [take_digits].
    rewrite digit_value_digit_char by (Z.div_mod_to_equations; lia).
    replace (n / 10 * 10 + n mod 10) with n by (Z.div_mod_to_equations; lia).
    f_equal. lia.
Qed.

Lemma digits_fuel_enough (n : Z) : 0 <= n -> n < 2 ^ Z.of_nat (digits_fuel n).
Proof.
  intros Hn. unfold digits_fuel.
  rewrite Nat2Z.inj_succ, Z2Nat.id by apply Z.log2_nonneg.
  destruct (Z.eq_dec n 0) as [->|Hz]; [reflexivity|].
  apply Z.log2_spec. lia.
Qed.

Lemma decimal_of_nat_digits (n : Z) :
  0 <= n -> decimal_of (nat_digits (digits_fuel n) n "") n.
Proof.
  intros Hn. split.
  - apply nat_digits_chars. reflexivity.
  - intros c. pose proof (digits_fuel_enough n Hn) as Hf. unfold digits_fuel in *.
    destruct (take_digits_nat_digits (Z.to_nat (Z.log2 n)) n "" c) as [k Hk]; [lia|].
    exists k. rewrite Hk. reflexivity.
Qed.

Lemma decimal_of_zero_prefix (s : string) (n : Z) :
  decimal_of s n -> decimal_of (String "0" s) n.
Proof.
  intros [Hc Ht]. split.
  - cbn [forall_chars]. rewrite Hc. reflexivity.
  - intros c. destruct (Ht (S c)) as [k Hk]. exists (S k).
    cbn [take_digits]. change (digit_value 10 "0") with (Some 0).
    cbn iota. change (0 * 10 + 0) with 0. rewrite Hk.
    replace (S (S c + k)) with (S (c + S k)) by lia. reflexivity.
Qed.

Lemma decimal_of_nonempty (s : string) (n : Z) : decimal_of s n -> s <> EmptyString.
Proof.
  intros [_ Ht] ->. destruct (Ht 0%nat) as [k Hk]. cbn in Hk. discriminate.
Qed.

Lemma decimal_of_padStart (s : string) (n : Z) :
  decimal_of s n -> decimal_of (padStart 2 "0" s) n.
Proof.
  intros H. unfold padStart.
  generalize (2 - String.length s)%nat as m. induction m as [|m IH].
  - exact H.
  - cbn [replicate]. change (String "0" (replicate m "0") ++ s)%string
      with (String "0" (replicate m "0" ++ s)%string).
    apply decimal_of_zero_prefix. exact IH.
Qed.

(** Facts about a digit character. *)
Lemma is_digit_code (c : ascii) :
  is_digit c = true -> (48 <= nat_of_ascii c <= 57)%nat.
Proof.
  unfold is_digit. intros H. apply andb_true_iff in H as [H1 H2].
  apply Nat.leb_le in H1, H2. lia.
Qed.

Lemma digit_not_char (c d : ascii) :
  is_digit c = true -> (nat_of_ascii d < 48 \/ 57 < nat_of_ascii d)%nat ->
  Ascii.eqb c d = false.
Proof.
  intros Hc Hd. apply is_digit_code in Hc.
  destruct (Ascii.eqb_spec c d) as [->|]; [lia | reflexivity].
Qed.

Lemma digit_not_white (c : ascii) : is_digit c = true -> is_white c = false.
Proof.
  intros Hc. apply is_digit_code in Hc. unfold is_white.
  repeat match goal with
         | |- context [(?a <=? ?b)%nat] => destruct (Nat.leb_spec a b)
         | |- context [(?a =? ?b)%nat] => destruct (Nat.eqb_spec a b)
         end; try reflexivity; lia.
Qed.

Lemma digit_no_radix (x : ascii) : is_digit x = true -> radix_of x = None.
Proof.
  intros Hx. unfold radix_of.
  rewrite !(digit_not_char x) by (try assumption; cbn; lia). reflexivity.
Qed.

Lemma trim_end_id (s : string) :
  forall_chars (fun c => negb (is_white c)) s = true -> trim_end s = s.
Proof.
  induction s as [|c r IH]; [reflexivity|].
  cbn [forall_chars trim_end]. intros H. apply andb_true_iff in H as [Hc Hr].
  rewrite (IH Hr). destruct r; [|reflexivity].
  apply negb_true_iff in Hc. rewrite Hc. reflexivity.
Qed.

Lemma forall_chars_impl (p q : ascii -> bool) (s : string) :
  (forall c, p c = true -> q c = true) ->
  forall_chars p s = true -> forall_chars q s = true.
Proof.
  intros Hpq. induction s as [|c r IH]; [reflexivity|].
  cbn [forall_chars]. intros H. apply andb_true_iff in H as [Hc Hr].
  rewrite (Hpq c Hc), (IH Hr). reflexivity.
Qed.

Lemma decimal_parse_unsigned (s : string) (n : Z) :
  decimal_of s n -> parse_unsigned_decimal s = LDec n 0.
Proof.
  intros H. pose proof (decimal_of_nonempty s n H) as Hne.
  destruct H as [Hc Ht]. destruct (Ht 0%nat) as [k Hk].
  unfold parse_unsigned_decimal. rewrite Hk.
  destruct s as [|c r]; [contradiction|].
  cbn [forall_chars] in Hc. apply andb_true_iff in Hc as [Hc _].
  cbn [String.eqb]. rewrite (digit_not_char c "I") by (try assumption; cbn; lia).
  reflexivity.
Qed.

Lemma decimal_StringToNumber (s : string) (n : Z) :
  decimal_of s n -> StringToNumber s = LDec n 0.
Proof.
  intros H. pose proof (decimal_of_nonempty s n H) as Hne.
  pose proof (decimal_parse_unsigned s n H) as Hp.
  destruct H as [Hc _]. destruct s as [|c r]; [contradiction|].
  unfold StringToNumber.
  assert (trim_start (String c r) = String c r) as ->.
  { cbn [forall_chars] in Hc. apply andb_true_iff in Hc as [Hc _].
    cbn [trim_start]. rewrite (digit_not_white c Hc). reflexivity. }
  rewrite trim_end_id
    by (eapply forall_chars_impl; [|exact Hc];
        intros d Hd; rewrite (digit_not_white d Hd); reflexivity).
  cbn [forall_chars] in Hc. apply andb_true_iff in Hc as [Hc Hr].
  unfold parse_numeric.
  assert (parse_radix (String c r) = None) as ->.
  { unfold parse_radix. destruct r as [|x r']; [reflexivity|].
    cbn [forall_chars] in Hr. apply andb_true_iff in Hr as [Hx _].
    rewrite (digit_no_radix x Hx). destruct (Ascii.eqb c "0"); reflexivity. }
  rewrite !(digit_not_char c) by (try assumption; cbn; lia).
  exact Hp.
Qed.

Lemma decimal_StringToNumber_neg (s : string) (n : Z) :
  decimal_of s n -> StringToNumber (String "-" s) = LDec (- n) 0.
Proof.
  intros H. pose proof (decimal_of_nonempty s n H) as Hne.
  pose proof (decimal_parse_unsigned s n H) as Hp.
  destruct H as [Hc _]. destruct s as [|c r]; [contradiction|].
  unfold StringToNumber. change (trim_start (String "-" (String c r)))
    with (String "-" (String c r)).
  rewrite trim_end_id.
  - unfold parse_numeric.
    assert (parse_radix (String "-" (String c r)) = None) as -> by reflexivity.
    change (Ascii.eqb "-" "+") with false. change (Ascii.eqb "-" "-") with true.
    cbv iota. rewrite Hp. reflexivity.
  - change (forall_chars (fun c0 => negb (is_white c0)) (String "-" (String c r)))
      with (forall_chars (fun c0 => negb (is_white c0)) (String c r)).
    eapply forall_chars_impl; [|exact Hc].
    intros d Hd; rewrite (digit_not_white d Hd); reflexivity.
Qed.

(** Reading back what [Number_toString] prints for an integer. *)
Lemma StringToNumber_Z_to_string (z : Z) : StringToNumber (Z_to_string z) = LDec z 0.
Proof.
  unfold Z_to_string. destruct (Z.ltb_spec z 0).
  - rewrite (decimal_StringToNumber_neg _ (- z)) by (apply decimal_of_nat_digits; lia).
    f_equal. lia.
  - apply decimal_StringToNumber, decimal_of_nat_digits. assumption.
Qed.

(** ** The codec round trip (C2) *)

Lemma split_field (s r : string) :
  no_slash s = true -> split "/" (s ++ String "/" r)%string = s :: split "/" r.
Proof.
  unfold no_slash. induction s as [|c s IH]; intros H.
  - reflexivity.
  - cbn [forall_chars] in H. apply andb_true_iff in H as [Hc Hs].
    apply negb_true_iff in Hc.
    change (String c s ++ String "/" r)%string with (String c (s ++ String "/" r)%string).
    cbn [split]. rewrite Hc, (IH Hs). reflexivity.
Qed.

Lemma split_single (s : string) : no_slash s = true -> split "/" s = [s].
Proof.
  unfold no_slash. induction s as [|c s IH]; intros H.
  - reflexivity.
  - cbn [forall_chars] in H. apply andb_true_iff in H as [Hc Hs].
    apply negb_true_iff in Hc. cbn [split]. rewrite Hc, (IH Hs). reflexivity.
Qed.

Lemma decimal_no_slash (s : string) (n : Z) : decimal_of s n -> no_slash s = true.
Proof.
  intros [Hc _]. unfold no_slash. eapply forall_chars_impl; [|exact Hc].
  intros c Hd. rewrite (digit_not_char c "/") by (try assumption; cbn; lia). reflexivity.
Qed.

Lemma Z_to_string_decimal (n : Z) : 0 <= n -> decimal_of (Z_to_string n) n.
Proof.
  intros Hn. unfold Z_to_string. destruct (Z.ltb_spec n 0); [lia|].
  apply decimal_of_nat_digits. assumption.
Qed.

Lemma Z_to_string_no_slash (z : Z) : no_slash (Z_to_string z) = true.
Proof.
  unfold Z_to_string. destruct (Z.ltb_spec z 0).
  - unfold no_slash. cbn [forall_chars]. change (negb (Ascii.eqb "-" "/")) with true.
    apply (decimal_no_slash _ (- z)), decimal_of_nat_digits. lia.
  - apply (decimal_no_slash _ z), decimal_of_nat_digits. assumption.
Qed.

Lemma two_digits_decimal (n : Z) : 0 <= n -> decimal_of (two_digits n) n.
Proof. intros Hn. apply decimal_of_padStart, Z_to_string_decimal. assumption. Qed.

Lemma integral_LDec_0 (n : Z) : integral (LDec n 0) = Num n.
Proof. cbn. f_equal. lia. Qed.

Lemma integral_pred_LDec_0 (n : Z) : integral (lit_pred (LDec n 0)) = Num (n - 1).
Proof. cbn. f_equal. lia. Qed.

(** The text [unixToMilitary] prints for a valid instant, and what
    [militaryToUnix] reads from it: the fields go back through MakeFullYear,
    MakeDay and MakeTime. *)
Lemma unixToMilitary_valid (x : Z) :
  - maxTime <= x <= maxTime ->
  unixToMilitary (VNum (Num x))
  = (Z_to_string (YearFromTime x) ++ "/" ++ two_digits (MonthFromTime x + 1) ++ "/" ++
     two_digits (DateFromTime x) ++ "/" ++ two_digits (HourFromTime x) ++ "/" ++
     two_digits (MinFromTime x))%string.
Proof.
  intros Hr. unfold unixToMilitary, new_Date. cbn [ToNumber].
  rewrite TimeClip_valid by assumption. reflexivity.
Qed.

Lemma militaryToUnix_unixToMilitary (x : Z) :
  - maxTime <= x <= maxTime ->
  militaryToUnix (unixToMilitary (VNum (Num x)))
  = TimeClip (MakeDate (MakeDay (MakeFullYear (Num (YearFromTime x)))
                                (Num (MonthFromTime x)) (Num (DateFromTime x)))
                       (MakeTime (Num (HourFromTime x)) (Num (MinFromTime x))
                                 (Num 0) (Num 0))).
Proof.
  intros Hr. rewrite unixToMilitary_valid by assumption.
  pose proof (MonthFromTime_range x) as Hm.
  pose proof (DateFromTime_range x) as Hd.
  pose proof (time_fields_range x) as (Hh & Hmi & _).
  pose proof (two_digits_decimal (MonthFromTime x + 1) ltac:(lia)) as Dm.
  pose proof (two_digits_decimal (DateFromTime x) ltac:(lia)) as Dd.
  pose proof (two_digits_decimal (HourFromTime x) ltac:(lia)) as Dh.
  pose proof (two_digits_decimal (MinFromTime x) ltac:(lia)) as Dmi.
  unfold militaryToUnix.
  cbn [String.append].
  rewrite split_field by apply Z_to_string_no_slash.
  rewrite split_field by (eapply decimal_no_slash; exact Dm).
  rewrite split_field by (eapply decimal_no_slash; exact Dd).
  rewrite split_field by (eapply decimal_no_slash; exact Dh).
  rewrite split_single by (eapply decimal_no_slash; exact Dmi).
  cbn [nth_error ToNumber_field].
  rewrite StringToNumber_Z_to_string.
  rewrite (decimal_StringToNumber _ _ Dm), (decimal_StringToNumber _ _ Dd),
    (decimal_StringToNumber _ _ Dh), (decimal_StringToNumber _ _ Dmi).
  unfold Date_UTC. rewrite integral_pred_LDec_0, !integral_LDec_0.
  replace (MonthFromTime x + 1 - 1) with (MonthFromTime x) by lia.
  reflexivity.
Qed.

(** C2 outside the years 0..99: decoding the encoding of a valid instant
    gives the instant truncated down to the minute. *)
Lemma roundtrip_outside_first_century (x : Z) :
  - maxTime <= x <= maxTime -> ~ 0 <= YearFromTime x <= 99 ->
  militaryToUnix (unixToMilitary (VNum (Num x))) = Num (floor_to_minute x).
Proof.
  intros Hr Hy. rewrite militaryToUnix_unixToMilitary by assumption.
  assert (MakeFullYear (Num (YearFromTime x)) = Num (YearFromTime x)) as ->.
  { cbn [MakeFullYear].
    destruct (Z.leb_spec 0 (YearFromTime x)); destruct (Z.leb_spec (YearFromTime x) 99);
      try reflexivity. lia. }
  pose proof (MakeDay_fields x 0) as Hd. rewrite !Z.add_0_r in Hd. rewrite Hd.
  cbn [MakeTime MakeDate]. unfold floor_to_minute.
  rewrite TimeClip_valid by time_arith. f_equal. time_arith.
Qed.

(** X7 (C2 in the years 0..99): the decoded instant is not the truncated one,
    because Date.UTC reads a year below 100 as a year of the 1900s. *)
Lemma roundtrip_inside_first_century (x : Z) :
  - maxTime <= x <= maxTime -> 0 <= YearFromTime x <= 99 ->
  militaryToUnix (unixToMilitary (VNum (Num x))) <> Num (floor_to_minute x).
Proof.
  intros Hr Hy. rewrite militaryToUnix_unixToMilitary by assumption.
  assert (MakeFullYear (Num (YearFromTime x)) = Num (1900 + YearFromTime x)) as ->.
  { unfold MakeFullYear.
    destruct (Z.leb_spec 0 (YearFromTime x)); [|lia].
    destruct (Z.leb_spec (YearFromTime x) 99); [reflexivity | lia]. }
  unfold MakeDay, MakeTime, MakeDate, TimeClip.
  destruct (Z.abs _ <=? maxTime); [|discriminate].
  intros H. apply Num_inj in H.
  pose proof (MonthFromTime_range x) as Hm.
  pose proof (DateFromTime_range x) as Hd.
  pose proof (time_fields_range x) as (Hh & Hmi & _).
  unfold day_of_month_start in H.
  rewrite Z.div_small, Z.mod_small, Z.add_0_r in H by lia.
  pose proof (DayFromYear_mono 1900 (1900 + YearFromTime x) ltac:(lia)) as M1.
  pose proof (YearFromDay_spec (Day x)) as [_ M2]. fold (YearFromTime x) in M2.
  pose proof (DayFromYear_mono (YearFromTime x + 1) 100 ltac:(lia)) as M3.
  change (DayFromYear 1900) with (-25567) in M1.
  change (DayFromYear 100) with (-683003) in M3.
  assert (0 <= days_before_month (MonthFromTime x)
                 (if is_leap (1900 + YearFromTime x) then 1 else 0)) as M4.
  { unfold days_before_month.
    destruct (is_leap _);
      repeat match goal with |- context [if ?c then _ else _] => destruct c end; lia. }
  unfold floor_to_minute in H. time_arith.
Qed.

(** C2 at an instant of the year 50: the encoding is 50/01/01/00/00 and
    its decoding is 1950-01-01T00:00:00Z, not the instant itself (which is
    already on a minute). *)
Theorem roundtrip_breaks_in_year_50 :
  - maxTime <= year_50 <= maxTime /\
  floor_to_minute year_50 = year_50 /\
  unixToMilitary (VNum (Num year_50)) = "50/01/01/00/00"%string /\
  militaryToUnix (unixToMilitary (VNum (Num year_50))) = Num (-631152000000) /\
  militaryToUnix (unixToMilitary (VNum (Num year_50))) <> Num (floor_to_minute year_50).
Proof.
  split; [unfold year_50, maxTime; lia|].
  repeat split; try (vm_compute; reflexivity).
  vm_compute. discriminate.
Qed.

(** ** The scheduler *)

Section SchedulerFacts.

Variable tz : zone.
Variable clock : nat -> Z.

(** One turn of the [while] loop of [every]. *)
Lemma fill_step (this : timing) (reads : nat) (key : string) :
  fill tz clock this reads key =
  if below_depth this key then
    match method tz key with
    | None => Throw TypeError
    | Some calc =>
        let tail := last_entry (upcomming this) in
        fill tz clock (push this (calc (clock reads) tail))
             (if truthy tail then reads else S reads) key
    end
  else Normal (this, reads).
Proof.
  funelim (fill tz clock this reads key).
  - rewrite e. reflexivity.
  - rewrite Hlt, Heq. reflexivity.
  - rewrite Hlt, Heq. reflexivity.
Qed.

(** The loop leaves [now] and [settings] alone, only appends to the queue,
    and stops with the queue at least as long as the depth of [key]. *)
Lemma fill_result (this : timing) (reads : nat) (key : string) :
  match fill tz clock this reads key with
  | Normal (this', reads') =>
      now this' = now this /\ settings this' = settings this /\
      (exists added, upcomming this' = upcomming this ++ added) /\
      below_depth this' key = false /\ (reads <= reads')%nat
  | Throw _ => method tz key = None
  end.
Proof.
  funelim (fill tz clock this reads key).
  - repeat split; try assumption; try lia. exists []. now rewrite app_nil_r.
  - cbv zeta in *.
    destruct (fill tz clock _ _ key) as [[this' reads']|err]; [|assumption].
    destruct H as (Hn & Hs & [added Ha] & Hb & Hr).
    cbn [push now settings upcomming] in *.
    repeat split; try assumption.
    + eexists. rewrite Ha, <- app_assoc. reflexivity.
    + destruct (truthy _); lia.
  - assumption.
Qed.

Lemma fill_more (this : timing) (reads : nat) (key : string) (n : Z)
      (calc : Z -> value -> jsnum) :
  settings_get (settings this) key = Some n ->
  Z.of_nat (List.length (upcomming this)) < n ->
  method tz key = Some calc ->
  fill tz clock this reads key
  = fill tz clock (push this (calc (clock reads) (last_entry (upcomming this))))
         (if truthy (last_entry (upcomming this)) then reads else S reads) key.
Proof.
  intros Hs Hlt Hm. rewrite fill_step at 1. unfold below_depth. rewrite Hs, Hm.
  destruct (Z.ltb_spec (Z.of_nat (List.length (upcomming this))) n); [reflexivity | lia].
Qed.

Lemma fill_done (this : timing) (reads : nat) (key : string) (n : Z) :
  settings_get (settings this) key = Some n ->
  n <= Z.of_nat (List.length (upcomming this)) ->
  fill tz clock this reads key = Normal (this, reads).
Proof.
  intros Hs Hge. rewrite fill_step. unfold below_depth. rewrite Hs.
  destruct (Z.ltb_spec (Z.of_nat (List.length (upcomming this))) n); [lia | reflexivity].
Qed.

Lemma fill_no_depth (this : timing) (reads : nat) (key : string) :
  settings_get (settings this) key = None ->
  fill tz clock this reads key = Normal (this, reads).
Proof.
  intros Hs. rewrite fill_step. unfold below_depth. rewrite Hs. reflexivity.
Qed.

End SchedulerFacts.

(** C3: whatever the state, the key and the clock, one call of [every]
    calls the callback at most once; when it does, exactly the front entry of
    the filled queue is removed and passed on, and every other entry stays,
    in the past or not. *)
Theorem every_calls_back_at_most_once
  (tz : zone) (clock : nat -> Z) (this : timing) (reads : nat) (key : string) :
  (List.length (calls (every tz clock this reads key)) <= 1)%nat /\
  match fill tz clock this reads key, every tz clock this reads key with
  | Normal (filled, _), Normal (this', _, evs) =>
      (evs = [] /\ this' = filled) \/
      (exists front, upcomming filled = front :: upcomming this' /\
                     now this' = VNum front /\
                     evs = [unixToMilitary (VNum front)])
  | Throw _, Throw _ => True
  | _, _ => False
  end.
Proof.
  unfold every.
  destruct (fill tz clock this reads key) as [[filled reads1]|err]; [|split; [cbn; lia | exact I]].
  destruct (js_lt _ _) eqn:E.
  - split; [cbn; lia|]. right.
    destruct (upcomming filled) as [|front rest] eqn:Q; [discriminate E|].
    exists front. cbn. repeat split.
  - split; [cbn; lia|]. left. split; reflexivity.
Qed.

(** Three entries in the past: one call, one callback, two of them stay. *)
Example every_coalesces :
  every (fixed 0) (fun _ => ref_10_10)
        {| now := VUndef; upcomming := [Num 60000; Num 120000; Num 180000];
           settings := Settings.mk 7 24 3 60 |} 0 "nextMinute"
  = Normal ({| now := VNum (Num 60000); upcomming := [Num 120000; Num 180000];
               settings := Settings.mk 7 24 3 60 |}, 1%nat,
            ["1970/01/01/00/01"%string]).
Proof. vm_compute. reflexivity. Qed.

Lemma next_minute_bounds (tz x : Z) :
  x < next_minute tz x <= x + 60000 /\
  next_minute tz (next_minute tz x) = next_minute tz x + 60000 /\
  SecFromTime (LocalTime (fixed tz) (next_minute tz x)) = 0 /\
  msFromTime (LocalTime (fixed tz) (next_minute tz x)) = 0.
Proof. unfold next_minute. time_arith. Qed.

(** C6, as amended: in a zone that is steady from the
    clock reading [t0] to [t0 + 180000], with [settings.nextMinute] equal to
    3 and an empty queue, a call of [every] for the minute kind at [t0] (not
    before the epoch, three minutes inside the range of Date) fills the queue
    with the starts of the three minutes after [t0]: the first is computed
    from the clock, each further one from the tail of the queue.  While that
    front entry is not in the past at the check, the callback is not called
    and the three entries stay. *)
Theorem every_first_call_fills_three
  (tz : zone) (off : Z) (clock : nat -> Z) (this : timing) (reads : nat) :
  let t0 := clock reads in
  let m1 := next_minute off t0 in
  upcomming this = [] -> Settings.nextMinute (settings this) = 3 ->
  steady tz off t0 (t0 + 180000) ->
  0 <= t0 -> t0 + 180000 <= maxTime ->
  clock (S reads) <= m1 ->
  every tz clock this reads "nextMinute"
  = Normal ({| now := now this;
               upcomming := [Num m1; Num (m1 + 60000); Num (m1 + 120000)];
               settings := settings this |}, S (S reads), []) /\
  nextMinute tz t0 VUndef = Num m1 /\
  nextMinute tz t0 (VNum (Num m1)) = Num (m1 + 60000) /\
  nextMinute tz t0 (VNum (Num (m1 + 60000))) = Num (m1 + 120000) /\
  t0 < m1 <= t0 + 60000 /\
  SecFromTime (LocalTime tz m1) = 0 /\ msFromTime (LocalTime tz m1) = 0.
Proof.
  intros t0 m1 Hq Hs Hz H0 Hmax Hfront.
  pose proof (next_minute_bounds off t0) as (Hb & _ & Hsec & Hms). fold m1 in Hb, Hsec, Hms.
  assert (nextMinute tz t0 VUndef = Num m1) as E1
    by (apply (nextMinute_at tz off t0 _ _ Hz VUndef t0);
        [reflexivity | | | |]; unfold maxTime, msPerMinute in *; lia).
  assert (forall now, nextMinute tz now (VNum (Num m1)) = Num (m1 + 60000)) as E2.
  { intros now. rewrite (nextMinute_value tz off now _ _ Hz)
      by (unfold maxTime, msPerMinute in *; lia).
    f_equal. subst m1. unfold next_minute. clear Hz. time_arith. }
  assert (forall now, nextMinute tz now (VNum (Num (m1 + 60000))) = Num (m1 + 120000)) as E3.
  { intros now. rewrite (nextMinute_value tz off now _ _ Hz)
      by (unfold maxTime, msPerMinute in *; lia).
    f_equal. subst m1. unfold next_minute. clear Hz. time_arith. }
  split; [|rewrite (LocalTime_steady tz off _ _ Hz m1) by lia; repeat split; auto; lia].
  unfold every.
  destruct this as [nw q st]. cbn [upcomming settings now] in *. subst q.
  assert (settings_get st "nextMinute" = Some 3) as Hget by (rewrite <- Hs; reflexivity).
  assert (method tz "nextMinute" = Some (nextMinute tz)) as Hm by reflexivity.
  rewrite (fill_more tz clock _ _ _ 3 (nextMinute tz)) by (try assumption; cbn; lia).
  cbn [last_entry truthy push upcomming now settings app]. fold t0. rewrite E1.
  rewrite (fill_more tz clock _ _ _ 3 (nextMinute tz)) by (try assumption; cbn; lia).
  cbn [last_entry last push upcomming now settings app].
  rewrite truthy_nonzero by lia. rewrite E2.
  rewrite (fill_more tz clock _ _ _ 3 (nextMinute tz)) by (try assumption; cbn; lia).
  cbn [last_entry last push upcomming now settings app].
  rewrite truthy_nonzero by lia. rewrite E3.
  rewrite (fill_done tz clock _ _ _ 3) by (try assumption; cbn; lia).
  cbn [front_entry ToNumber js_lt push upcomming now settings app].
  destruct (Z.ltb_spec m1 (clock (S reads))); [lia | reflexivity].
Qed.

Lemma every_first_call_fills_three_witness :
  every new_york_november (fun _ => ref_10_10 + 5) (set_minute_depth initial 3) 0 "nextMinute"
  = Normal ({| now := VUndef;
               upcomming := [Num 1686823860000; Num 1686823920000; Num 1686823980000];
               settings := Settings.mk 7 24 3 60 |}, 2%nat, []).
Proof.
  apply (every_first_call_fills_three new_york_november (-14400000)
           (fun _ => ref_10_10 + 5) (set_minute_depth initial 3) 0).
  - reflexivity.
  - reflexivity.
  - apply steady_before. unfold ref_10_10. lia.
  - unfold ref_10_10. lia.
  - unfold ref_10_10, maxTime. lia.
  - vm_compute. discriminate.
Defined.

(** C6 fails as stated: with the clock 5 ms before the epoch in a UTC zone
    the first entry is the instant 0, which the calculator then takes for a
    missing argument, and the queue is three times 0; and in New York at
    01:30 standard time on 2023-11-05, in the hour the clocks repeat, the
    three entries are 01:31, 01:32 and 01:33 daylight time, an hour before
    the clock, and the callback is called at once. *)
Lemma every_first_call_counterexample :
  every (fixed 0) (fun _ => -5) (set_minute_depth initial 3) 0 "nextMinute"
  = Normal ({| now := VUndef; upcomming := [Num 0; Num 0; Num 0];
               settings := Settings.mk 7 24 3 60 |}, 4%nat, []) /\
  every new_york_november (fun _ => 1699165800000) (set_minute_depth initial 3) 0 "nextMinute"
  = Normal ({| now := VNum (Num 1699162260000);
               upcomming := [Num 1699162320000; Num 1699162380000];
               settings := Settings.mk 7 24 3 60 |}, 2%nat,
            ["2023/11/05/05/31"%string]).
Proof. split; vm_compute; reflexivity. Qed.

(** C7 for the day kind: the calculator is called [nextday] and the depth
    is stored under [nextDay].  Under the name of the calculator there is no
    depth, so the loop never runs and the queue is not padded (to 7 or to
    anything); under the name of the depth there is no calculator, so the
    first turn of the loop raises a TypeError. *)
Theorem every_day_kind_is_not_padded :
  settings_get (settings initial) "nextDay" = Some 7 /\
  (forall tz clock this reads,
     fill tz clock this reads "nextday" = Normal (this, reads)) /\
  (forall tz clock reads,
     every tz clock initial reads "nextday" = Normal (initial, S reads, [])) /\
  (forall tz clock reads,
     every tz clock initial reads "nextDay" = Throw TypeError).
Proof.
  split; [reflexivity|]. split; [|split].
  - intros. apply fill_no_depth. reflexivity.
  - intros. unfold every. rewrite fill_no_depth by reflexivity. reflexivity.
  - intros. unfold every. rewrite fill_step. reflexivity.
Qed.

(** ** The queue invariant for the kinds that work *)

Lemma nondecreasing_snoc (l : list Z) (z : Z) :
  nondecreasing l -> (l <> [] -> last l 0 <= z) -> nondecreasing (l ++ [z]).
Proof.
  induction l as [|x l IH]; intros Hs Hl; [exact I|].
  destruct l as [|y l].
  - cbn. split; [apply Hl; discriminate | exact I].
  - destruct Hs as [Hxy Hs]. change ((x :: y :: l) ++ [z]) with (x :: y :: (l ++ [z])).
    split; [exact Hxy|]. apply IH; [exact Hs|].
    intros _. apply Hl. discriminate.
Qed.

Lemma nondecreasing_tl (l : list Z) : nondecreasing l -> nondecreasing (tl l).
Proof.
  destruct l as [|x [|y l]]; cbn; try tauto.
Qed.

Lemma last_entry_map (zs : list Z) :
  last_entry (map Num zs) = match zs with [] => VUndef | _ => VNum (Num (last zs 0)) end.
Proof.
  destruct zs as [|z zs]; [reflexivity|].
  cbn [map last_entry]. do 2 f_equal.
  revert z. induction zs as [|y zs IH]; intros z; [reflexivity|].
  cbn [map last] in *. apply IH.
Qed.

Section FillInvariant.

Variable tz : zone.
Variable clock : nat -> Z.
Variable key : string.
Variable calc : Z -> value -> jsnum.
Hypothesis Hcalc : method tz key = Some calc.

(** [room g z]: [z] can be the tail of the queue when [g] more entries
    are to be appended. *)
Variable room : nat -> Z -> Prop.
Hypothesis from_tail : forall g now z,
  room (S g) z -> z <> 0 /\ exists z', calc now (VNum (Num z)) = Num z' /\ z <= z' /\ room g z'.
(** An empty queue is filled from the clock; at most [D] entries are
    ever missing. *)
Variable D : nat.
Hypothesis from_clock : forall g i,
  (g < D)%nat -> exists z', calc (clock i) VUndef = Num z' /\ room g z'.

Lemma fill_keeps_nondecreasing (g : nat) :
  forall (this : timing) (reads : nat) (zs : list Z),
    (g <= D)%nat ->
    gap this key = g ->
    upcomming this = map Num zs -> nondecreasing zs ->
    (zs <> [] -> room g (last zs 0)) ->
    exists this' reads' zs',
      fill tz clock this reads key = Normal (this', reads') /\
      upcomming this' = map Num zs' /\ nondecreasing zs' /\
      settings this' = settings this /\ now this' = now this /\
      below_depth this' key = false.
Proof.
  induction g as [|g IH]; intros this reads zs HD Hg Hq Hs Hroom.
  - assert (below_depth this key = false) as Hb.
    { unfold gap in Hg. unfold below_depth.
      destruct (settings_get (settings this) key) as [n|]; [|reflexivity].
      apply Z.ltb_ge. lia. }
    exists this, reads, zs. rewrite fill_step, Hb. repeat split; assumption.
  - unfold gap in Hg.
    destruct (settings_get (settings this) key) as [n|] eqn:Hn; [|discriminate].
    rewrite (fill_more tz clock this reads key n calc) by (try assumption; lia).
    rewrite Hq, last_entry_map.
    assert (forall z', gap (push this (Num z')) key = g) as Hgap.
    { intros z'. unfold gap. cbn [push settings upcomming]. rewrite Hn.
      rewrite List.length_app. cbn [List.length]. lia. }
    destruct zs as [|z0 zs0] eqn:Hz.
    + destruct (from_clock g reads) as (z' & Hc & Hr); [lia|]. cbn [truthy]. rewrite Hc.
      destruct (IH (push this (Num z')) (S reads) [z']) as (t' & r' & zs' & H1 & H2 & H3 & H4 & H5 & H6).
      * lia.
      * apply Hgap.
      * cbn [push upcomming]. rewrite Hq. reflexivity.
      * exact I.
      * intros _. exact Hr.
      * exists t', r', zs'. repeat split; assumption.
    + rewrite <- Hz in *. assert (zs <> []) as Hne by (subst; discriminate).
      destruct (from_tail g (clock reads) (last zs 0) (Hroom Hne)) as (Hnz & z' & Hc & Hle & Hr).
      rewrite truthy_nonzero by assumption. rewrite Hc.
      destruct (IH (push this (Num z')) reads (zs ++ [z'])) as (t' & r' & zs' & H1 & H2 & H3 & H4 & H5 & H6).
      * lia.
      * apply Hgap.
      * cbn [push upcomming]. rewrite Hq, map_app. reflexivity.
      * apply nondecreasing_snoc; [assumption | intros _; assumption].
      * intros _. rewrite last_last. exact Hr.
      * exists t', r', zs'. repeat split; assumption.
Qed.

End FillInvariant.

Lemma nextSecond_at (tz : zone) (off now lo hi : Z) (date : value) (x : Z) :
  steady tz off lo hi ->
  or_now now date = VNum (Num x) ->
  x <> 0 -> lo <= x -> x + msPerSecond <= hi ->
  - maxTime <= x -> x + msPerSecond <= maxTime ->
  nextSecond tz now date = Num (((x + off) / msPerSecond + 1) * msPerSecond - off).
Proof.
  intros Hz Hv Hnz Hl Hh Hlo Hhi.
  rewrite <- (nextSecond_value tz off now _ _ Hz x) by assumption.
  unfold nextSecond. rewrite Hv, or_now_nonzero by assumption. reflexivity.
Qed.

Lemma nextHour_at (tz : zone) (now : Z) (date : value) (x : Z) :
  or_now now date = VNum (Num x) -> x <> 0 ->
  nextHour tz now date = nextHour tz now (VNum (Num x)).
Proof.
  intros Hv Hnz. unfold nextHour. rewrite Hv, or_now_nonzero by assumption. reflexivity.
Qed.

(** The result of [nextHour] in a zone that is steady within
    a day of [x]: within half an hour of [x], on a local hour boundary. *)
Lemma nextHour_result (tz : zone) (off now x : Z) :
  steady tz off (x - msPerDay) (x + msPerDay) ->
  x <> 0 -> - maxTime + msPerDay <= x <= maxTime - msPerDay ->
  exists r, nextHour tz now (VNum (Num x)) = Num r /\
            x - 1800000 < r <= x + 1800000 /\
            MinFromTime (r + off) = 0 /\ SecFromTime (r + off) = 0 /\
            msFromTime (r + off) = 0.
Proof.
  intros Hz Hnz Hr. rewrite (nextHour_value tz off now _ _ Hz) by (assumption || lia).
  eexists. split; [reflexivity|].
  pose proof (time_fields_range (x + off)) as (Hh & Hm & _).
  unfold roundedHour, LocalTime, fixed. clear Hz.
  destruct (MinFromTime (x + off) <? 30) eqn:E30;
    [apply Z.ltb_lt in E30 | apply Z.ltb_ge in E30];
    match goal with |- context [23 <? ?h] => destruct (Z.ltb_spec 23 h) end;
    time_arith.
Qed.

Lemma Forall_last {A : Type} (P : A -> Prop) (l : list A) (a : A) :
  Forall P l -> l <> [] -> P (last l a).
Proof.
  induction l as [|x l IH]; intros Hf Hne; [contradiction|].
  inversion Hf; subst. destruct l as [|y l]; [assumption|].
  apply IH; [assumption | discriminate].
Qed.

Section WorkingKinds.

Variable tz : zone.
Variables off lo hi : Z.
Hypothesis Hz : steady tz off lo hi.
Variable clock : nat -> Z.
Variable d : Z.
Hypothesis Hclock : clock_ok clock d.
Hypothesis Hnear : forall i, inside lo hi d (clock i).

Let D : nat := depth_bound d.

Lemma minute_from_tail (g : nat) (now z : Z) :
  room_minute (S g) z /\ within lo hi msPerMinute (S g) z ->
  z <> 0 /\ exists z', nextMinute tz now (VNum (Num z)) = Num z' /\ z <= z' /\
                       (room_minute g z' /\ within lo hi msPerMinute g z').
Proof.
  unfold room_minute, within. intros [[Hp Hr] [Hl Hh]]. split; [lia|].
  eexists. split;
    [apply (nextMinute_value tz off now _ _ Hz); unfold maxTime, msPerMinute in *; lia|].
  clear Hz Hclock Hnear. time_arith.
Qed.

Lemma minute_from_clock (g i : nat) :
  (g < D)%nat ->
  exists z', nextMinute tz (clock i) VUndef = Num z' /\
             (room_minute g z' /\ within lo hi msPerMinute g z').
Proof.
  intros Hg. destruct (Hclock i) as [Hlo Hhi]. destruct (Hnear i) as [Hl Hh].
  unfold room_minute, within.
  eexists. split.
  - apply (nextMinute_at tz off (clock i) _ _ Hz VUndef (clock i)); [reflexivity | | | |];
      unfold maxTime, msPerMinute, msPerDay in *; lia.
  - subst D. unfold depth_bound in *. clear Hz Hclock Hnear. time_arith.
Qed.

Lemma second_from_tail (g : nat) (now z : Z) :
  room_second (S g) z /\ within lo hi msPerSecond (S g) z ->
  z <> 0 /\ exists z', nextSecond tz now (VNum (Num z)) = Num z' /\ z <= z' /\
                       (room_second g z' /\ within lo hi msPerSecond g z').
Proof.
  unfold room_second, within. intros [[Hp Hr] [Hl Hh]]. split; [lia|].
  eexists. split;
    [apply (nextSecond_value tz off now _ _ Hz); unfold maxTime, msPerSecond in *; lia|].
  clear Hz Hclock Hnear. time_arith.
Qed.

Lemma second_from_clock (g i : nat) :
  (g < D)%nat ->
  exists z', nextSecond tz (clock i) VUndef = Num z' /\
             (room_second g z' /\ within lo hi msPerSecond g z').
Proof.
  intros Hg. destruct (Hclock i) as [Hlo Hhi]. destruct (Hnear i) as [Hl Hh].
  unfold room_second, within.
  eexists. split.
  - apply (nextSecond_at tz off (clock i) lo hi VUndef (clock i) Hz); [reflexivity | | | | |];
      unfold maxTime, msPerSecond, msPerMinute, msPerDay in *; lia.
  - subst D. unfold depth_bound in *. clear Hz Hclock Hnear. time_arith.
Qed.

Lemma hour_from_tail (g : nat) (now z : Z) :
  room_hour tz (S g) z /\ lo <= z <= hi ->
  z <> 0 /\ exists z', nextHour tz now (VNum (Num z)) = Num z' /\ z <= z' /\
                       (room_hour tz g z' /\ lo <= z' <= hi).
Proof.
  unfold room_hour, on_hour. intros [[Hp Hh] Hw]. split; [lia|].
  assert (steady tz off z z) as Hzz by (apply (steady_narrow tz off lo hi); assumption || lia).
  rewrite (LocalTime_steady tz off _ _ Hzz z) in Hh by lia.
  destruct Hh as (Hm & Hs & Hms).
  exists z. split; [apply (nextHour_fixed_point tz off now _ _ Hzz); unfold maxTime in *; lia|].
  split; [lia|]. rewrite (LocalTime_steady tz off _ _ Hzz z) by lia. tauto.
Qed.

Lemma hour_from_clock (g i : nat) :
  (g < D)%nat ->
  exists z', nextHour tz (clock i) VUndef = Num z' /\ (room_hour tz g z' /\ lo <= z' <= hi).
Proof.
  intros Hg. destruct (Hclock i) as [Hlo Hhi]. destruct (Hnear i) as [Hl Hh].
  assert (clock i <> 0) as Hnz by (unfold msPerDay in *; lia).
  assert (- maxTime + msPerDay <= clock i <= maxTime - msPerDay) as Hr
    by (unfold maxTime, msPerDay, msPerMinute in *; lia).
  assert (steady tz off (clock i - msPerDay) (clock i + msPerDay)) as Hzc
    by (apply (steady_narrow tz off lo hi); assumption || (unfold msPerDay, msPerMinute in *; lia)).
  rewrite (nextHour_at tz (clock i) VUndef (clock i)) by (reflexivity || assumption).
  destruct (nextHour_result tz off (clock i) (clock i) Hzc Hnz Hr)
    as (r & Hv & Hb & Hm & Hs & Hms).
  assert (lo <= r <= hi) as Hw by (unfold msPerDay, msPerMinute in *; lia).
  exists r. split; [assumption|]. split; [|assumption].
  unfold room_hour, on_hour.
  rewrite (LocalTime_steady tz off _ _ Hz r) by assumption.
  split; [unfold maxTime, msPerDay in *; lia | tauto].
Qed.

(** X18 (C7 for the hour, minute and second kinds): in a zone that is
    steady from [lo] to [hi], from a non-decreasing queue of
    acceptable entries, under an acceptable clock, entries and clock readings
    being a day inside that interval, the loop of [every] pads the queue to
    the depth of the kind and keeps it non-decreasing, and so does the whole
    call. *)
Lemma every_keeps_queue_nondecreasing (this : timing) (reads : nat) (key : string)
      (zs : list Z) :
  key = "nextHour"%string \/ key = "nextMinute"%string \/ key = "nextSecond"%string ->
  settings_get (settings this) key = Some d ->
  upcomming this = map Num zs -> nondecreasing zs ->
  Forall (entry_ok tz key d) zs -> Forall (inside lo hi d) zs ->
  exists filled reads1 zs1 this' reads' evs zs',
    fill tz clock this reads key = Normal (filled, reads1) /\
    upcomming filled = map Num zs1 /\ nondecreasing zs1 /\
    d <= Z.of_nat (List.length zs1) /\
    every tz clock this reads key = Normal (this', reads', evs) /\
    upcomming this' = map Num zs' /\ nondecreasing zs'.
Proof.
  intros Hkey Hd Hq Hs Hok Hin.
  assert (gap this key <= D)%nat as HD.
  { unfold gap. rewrite Hd. subst D. unfold depth_bound. lia. }
  assert (exists filled reads1 zs1,
            fill tz clock this reads key = Normal (filled, reads1) /\
            upcomming filled = map Num zs1 /\ nondecreasing zs1 /\
            settings filled = settings this /\ now filled = now this /\
            below_depth filled key = false)
    as (filled & reads1 & zs1 & Hf & Hq1 & Hs1 & Hset & _ & Hb).
  { assert (gap this key <= depth_bound d)%nat as Hgd by exact HD.
    destruct Hkey as [-> | [-> | ->]].
    - apply (fill_keeps_nondecreasing tz clock "nextHour" (nextHour tz) eq_refl
               (fun g z => room_hour tz g z /\ lo <= z <= hi)
               hour_from_tail D hour_from_clock (gap this "nextHour") this reads zs);
        try assumption; try reflexivity.
      intros Hne. destruct (Forall_last _ zs 0 Hok Hne) as (Hp & Hr & Hh).
      destruct (Forall_last _ zs 0 Hin Hne) as (Hl & Hu).
      split; [split|];
        [unfold maxTime, msPerDay, msPerMinute in *; lia | apply Hh; reflexivity
         | unfold msPerDay, msPerMinute in *; lia].
    - apply (fill_keeps_nondecreasing tz clock "nextMinute" (nextMinute tz) eq_refl
               (fun g z => room_minute g z /\ within lo hi msPerMinute g z)
               minute_from_tail D minute_from_clock (gap this "nextMinute") this reads zs);
        try assumption; try reflexivity.
      intros Hne. destruct (Forall_last _ zs 0 Hok Hne) as (Hp & Hr & _).
      destruct (Forall_last _ zs 0 Hin Hne) as (Hl & Hu).
      unfold room_minute, within, depth_bound, msPerDay, msPerMinute in *. lia.
    - apply (fill_keeps_nondecreasing tz clock "nextSecond" (nextSecond tz) eq_refl
               (fun g z => room_second g z /\ within lo hi msPerSecond g z)
               second_from_tail D second_from_clock (gap this "nextSecond") this reads zs);
        try assumption; try reflexivity.
      intros Hne. destruct (Forall_last _ zs 0 Hok Hne) as (Hp & Hr & _).
      destruct (Forall_last _ zs 0 Hin Hne) as (Hl & Hu).
      unfold room_second, within, depth_bound, msPerDay, msPerMinute, msPerSecond in *. lia. }
  assert (d <= Z.of_nat (List.length zs1)) as Hlen.
  { unfold below_depth in Hb. rewrite Hset, Hd, Hq1, length_map in Hb.
    apply Z.ltb_ge in Hb. exact Hb. }
  unfold every. rewrite Hf.
  destruct (js_lt _ _).
  - exists filled, reads1, zs1. eexists _, _, _, (tl zs1).
    repeat split; try assumption; try reflexivity.
    + cbn [upcomming]. rewrite Hq1. destruct zs1; reflexivity.
    + apply nondecreasing_tl. assumption.
  - exists filled, reads1, zs1. eexists _, _, _, zs1.
    repeat split; try assumption; reflexivity.
Qed.

End WorkingKinds.

(** * Further properties of the calculators *)

(** X1: in a zone that is steady from [x] to [x + 1000],
    for every instant [x] other than the epoch 0 with [x + 1000] in the
    range of Date, [nextSecond x] has no milliseconds (local time) and lies in
    (x, x + 1000]. *)
Theorem nextSecond_in_next_second (tz : zone) (off now x : Z) :
  steady tz off x (x + 1000) ->
  x <> 0 -> - maxTime <= x -> x + 1000 <= maxTime ->
  is_next_second_start tz x (nextSecond tz now (VNum (Num x))).
Proof.
  intros Hz Hnz Hlo Hhi. unfold is_next_second_start.
  rewrite (nextSecond_value tz off now _ _ Hz) by (assumption || unfold msPerSecond; lia).
  eexists; split; [reflexivity|].
  rewrite !(LocalTime_steady tz off _ _ Hz) by time_arith.
  time_arith.
Qed.

Lemma nextSecond_in_next_second_witness :
  is_next_second_start new_york_november (ref_10_10 + 250)
    (nextSecond new_york_november 5 (VNum (Num (ref_10_10 + 250)))).
Proof.
  apply (nextSecond_in_next_second new_york_november (-14400000) 5 (ref_10_10 + 250)).
  - apply steady_before. unfold ref_10_10. lia.
  - unfold ref_10_10. lia.
  - unfold ref_10_10, maxTime. lia.
  - unfold ref_10_10, maxTime. lia.
Defined.

(** X2: in a zone that is steady from [x] to [x + 120000],
    applying [nextMinute] to its own result moves exactly one minute on,
    whenever the first result is not the instant 0 and the second is in the
    range of Date. *)
Theorem nextMinute_twice (tz : zone) (off now x : Z) :
  steady tz off x (x + 120000) ->
  x <> 0 -> - maxTime <= x -> x + 120000 <= maxTime ->
  nextMinute tz now (VNum (Num x)) <> Num 0 ->
  nextMinute tz now (VNum (nextMinute tz now (VNum (Num x))))
  = js_add (nextMinute tz now (VNum (Num x))) (Num 60000).
Proof.
  intros Hz Hnz Hlo Hhi.
  rewrite (nextMinute_value tz off now _ _ Hz x) by (assumption || unfold msPerMinute; lia).
  intros Hne. rewrite (nextMinute_value tz off now _ _ Hz).
  - cbn [js_add]. f_equal. time_arith.
  - congruence.
  - time_arith.
  - time_arith.
  - time_arith.
  - time_arith.
Qed.

Lemma nextMinute_twice_witness :
  nextMinute new_york_november 5 (VNum (nextMinute new_york_november 5 (VNum (Num ref_10_10))))
  = js_add (nextMinute new_york_november 5 (VNum (Num ref_10_10))) (Num 60000).
Proof.
  apply (nextMinute_twice new_york_november (-14400000) 5 ref_10_10).
  - apply steady_before. unfold ref_10_10. lia.
  - unfold ref_10_10. lia.
  - unfold ref_10_10, maxTime. lia.
  - unfold ref_10_10, maxTime. lia.
  - vm_compute. discriminate.
Defined.

(** X3: in a zone that is steady from [x] to [x] plus two
    days, [nextday x] is after [x] and at most a day later, and applying
    [nextday] to it moves exactly one day on, whenever the first result is
    not the instant 0 and the second is in the range of Date. *)
Theorem nextday_twice (tz : zone) (off now x : Z) :
  steady tz off x (x + 2 * msPerDay) ->
  x <> 0 -> - maxTime <= x -> x + 2 * msPerDay <= maxTime ->
  nextday tz now (VNum (Num x)) <> Num 0 ->
  exists r, nextday tz now (VNum (Num x)) = Num r /\ x < r <= x + msPerDay /\
            nextday tz now (VNum (Num r)) = Num (r + msPerDay).
Proof.
  intros Hz Hnz Hlo Hhi.
  rewrite (nextday_value tz off now _ _ Hz x) by (assumption || unfold msPerDay in *; lia).
  intros Hne. eexists. split; [reflexivity|]. split; [time_arith|].
  rewrite (nextday_value tz off now _ _ Hz).
  - f_equal. time_arith.
  - congruence.
  - time_arith.
  - time_arith.
  - time_arith.
  - time_arith.
Qed.

Lemma nextday_twice_witness :
  exists r, nextday cairo_april 5 (VNum (Num ref_23_45)) = Num r /\
            ref_23_45 < r <= ref_23_45 + msPerDay /\
            nextday cairo_april 5 (VNum (Num r)) = Num (r + msPerDay).
Proof.
  apply (nextday_twice cairo_april 10800000 5 ref_23_45).
  - apply steady_after. unfold ref_23_45. lia.
  - unfold ref_23_45. lia.
  - unfold ref_23_45, maxTime. lia.
  - unfold ref_23_45, maxTime, msPerDay. lia.
  - vm_compute. discriminate.
Defined.

(** X4: in a zone that is steady within a day of [x],
    [nextHour] rounds to the nearest local hour: its result is less than 30
    minutes before [x] or at most 30 minutes after it, and it is not after
    [x] exactly when the local minute of [x] is below 30. *)
Theorem nextHour_within_half_hour (tz : zone) (off now x : Z) :
  steady tz off (x - msPerDay) (x + msPerDay) ->
  x <> 0 -> - maxTime + msPerDay <= x <= maxTime - msPerDay ->
  exists r, nextHour tz now (VNum (Num x)) = Num r /\
            x - 1800000 < r <= x + 1800000 /\
            (r <= x <-> MinFromTime (LocalTime tz x) < 30).
Proof.
  intros Hz Hnz Hr. rewrite (nextHour_value tz off now _ _ Hz) by (assumption || lia).
  rewrite (LocalTime_steady tz off _ _ Hz x) by (unfold msPerDay; lia).
  eexists. split; [reflexivity|].
  pose proof (time_fields_range (x + off)) as (Hh & Hm & _).
  unfold roundedHour, LocalTime, fixed. clear Hz.
  destruct (MinFromTime (x + off) <? 30) eqn:E30;
    [apply Z.ltb_lt in E30 | apply Z.ltb_ge in E30];
    match goal with |- context [23 <? ?h] => destruct (Z.ltb_spec 23 h) end;
    time_arith.
Qed.

Lemma nextHour_within_half_hour_witness :
  exists r, nextHour new_york_march 5 (VNum (Num ref_10_10)) = Num r /\
            ref_10_10 - 1800000 < r <= ref_10_10 + 1800000 /\
            (r <= ref_10_10 <-> MinFromTime (LocalTime new_york_march ref_10_10) < 30).
Proof.
  apply (nextHour_within_half_hour new_york_march (-14400000) 5 ref_10_10).
  - apply steady_after. unfold ref_10_10, msPerDay. lia.
  - unfold ref_10_10. lia.
  - unfold ref_10_10, maxTime, msPerDay. lia.
Defined.

Lemma nextHour_idempotent_witness :
  nextHour lord_howe_october 5 (VNum (nextHour lord_howe_october 5 (VNum (Num ref_23_45))))
  = nextHour lord_howe_october 5 (VNum (Num ref_23_45)).
Proof.
  apply (nextHour_idempotent lord_howe_october 37800000 5 ref_23_45).
  - apply steady_before. unfold ref_23_45, msPerDay. lia.
  - unfold ref_23_45. lia.
  - unfold ref_23_45, maxTime, msPerDay. lia.
  - vm_compute. discriminate.
Defined.

(** Without that condition none of these holds.  In New York on
    2023-11-05, in the hour the clocks repeat, [nextSecond] and [nextHour]
    answer an hour early, an instant on a local hour boundary is not left
    where it is, and from 01:59:30 daylight time [nextMinute] goes over the
    whole repeated hour, to 02:00 standard time; in Cairo the day of the
    change lasts 23 hours; and on Lord Howe Island, where the clocks move by
    half an hour, [nextHour] lands on minute 30 and a second application
    moves on. *)
Example calculators_across_a_transition :
  nextSecond new_york_november 5 (VNum (Num 1699165800250)) = Num 1699162201000 /\
  nextHour new_york_november 5 (VNum (Num 1699164600000)) = Num 1699160400000 /\
  on_hour new_york_november 1699164000000 /\
  nextHour new_york_november 5 (VNum (Num 1699164000000)) = Num 1699160400000 /\
  nextMinute new_york_november 5 (VNum (Num 1699163970000)) = Num 1699167600000 /\
  nextday cairo_april 5 (VNum (Num 1682589600000)) = Num 1682632800000 /\
  nextday cairo_april 5 (VNum (Num 1682632800000)) = Num 1682715600000 /\
  nextHour lord_howe_october 5 (VNum (Num 1696086900000)) = Num 1696087800000 /\
  MinFromTime (LocalTime lord_howe_october 1696087800000) = 30 /\
  nextHour lord_howe_october 5 (VNum (Num 1696087800000)) = Num 1696089600000.
Proof. repeat split; vm_compute; reflexivity. Qed.

(** * Further properties of the codec *)

Lemma roundtrip_inside_first_century_witness :
  militaryToUnix (unixToMilitary (VNum (Num year_50))) <> Num (floor_to_minute year_50).
Proof.
  apply (roundtrip_inside_first_century year_50).
  - unfold year_50, maxTime. lia.
  - vm_compute. split; discriminate.
Defined.

Lemma nat_digits_small (f : nat) (n : Z) (rest : string) :
  0 <= n < 10 -> nat_digits (S f) n rest = String (digit_char n) rest.
Proof.
  intros Hn. cbn [nat_digits].
  destruct (Z.ltb_spec n 10); [|lia]. rewrite Z.mod_small by lia. reflexivity.
Qed.

Lemma nat_digits_large (f : nat) (n : Z) (rest : string) :
  10 <= n ->
  nat_digits (S f) n rest = nat_digits f (n / 10) (String (digit_char (n mod 10)) rest).
Proof.
  intros Hn. cbn [nat_digits]. destruct (Z.ltb_spec n 10); [lia | reflexivity].
Qed.

Lemma two_digits_length (n : Z) : 0 <= n <= 99 -> String.length (two_digits n) = 2%nat.
Proof.
  intros Hn. unfold two_digits, Number_toString, Z_to_string.
  destruct (Z.ltb_spec n 0); [lia|]. unfold digits_fuel.
  destruct (Z.ltb_spec n 10) as [Hs|Hb].
  - rewrite nat_digits_small by lia. reflexivity.
  - assert (1 <= Z.log2 n) as Hl by (apply Z.log2_le_pow2; simpl; lia).
    destruct (Z.to_nat (Z.log2 n)) as [|f] eqn:Ef; [lia|].
    rewrite nat_digits_large by lia.
    rewrite nat_digits_small by (Z.div_mod_to_equations; lia). reflexivity.
Qed.

Lemma split_unixToMilitary (x : Z) :
  - maxTime <= x <= maxTime ->
  split "/" (unixToMilitary (VNum (Num x)))
  = [Number_toString (Num (YearFromTime x)); two_digits (MonthFromTime x + 1);
     two_digits (DateFromTime x); two_digits (HourFromTime x); two_digits (MinFromTime x)].
Proof.
  intros Hr. rewrite unixToMilitary_valid by assumption.
  pose proof (MonthFromTime_range x) as Hm.
  pose proof (DateFromTime_range x) as Hd.
  pose proof (time_fields_range x) as (Hh & Hmi & _).
  cbn [String.append].
  rewrite split_field by apply Z_to_string_no_slash.
  rewrite split_field by (eapply decimal_no_slash, two_digits_decimal; lia).
  rewrite split_field by (eapply decimal_no_slash, two_digits_decimal; lia).
  rewrite split_field by (eapply decimal_no_slash, two_digits_decimal; lia).
  rewrite split_single by (eapply decimal_no_slash, two_digits_decimal; lia).
  reflexivity.
Qed.

(** X8: for a valid instant the text of [unixToMilitary] has exactly five
    fields between slashes: the UTC year, then month (1..12), day, hours and
    minutes, each of these four written with exactly two digits. *)
Theorem unixToMilitary_format (x : Z) :
  - maxTime <= x <= maxTime ->
  split "/" (unixToMilitary (VNum (Num x)))
  = [Number_toString (Num (YearFromTime x)); two_digits (MonthFromTime x + 1);
     two_digits (DateFromTime x); two_digits (HourFromTime x); two_digits (MinFromTime x)] /\
  String.length (two_digits (MonthFromTime x + 1)) = 2%nat /\
  String.length (two_digits (DateFromTime x)) = 2%nat /\
  String.length (two_digits (HourFromTime x)) = 2%nat /\
  String.length (two_digits (MinFromTime x)) = 2%nat /\
  1 <= MonthFromTime x + 1 <= 12 /\ 1 <= DateFromTime x <= 31 /\
  0 <= HourFromTime x <= 23 /\ 0 <= MinFromTime x <= 59.
Proof.
  intros Hr.
  pose proof (MonthFromTime_range x) as Hm.
  pose proof (DateFromTime_range x) as Hd.
  pose proof (time_fields_range x) as (Hh & Hmi & _).
  split; [apply split_unixToMilitary; assumption|].
  rewrite !two_digits_length by lia. repeat split; lia.
Qed.

Lemma unixToMilitary_format_witness :
  split "/" (unixToMilitary (VNum (Num ref_10_10)))
  = ["2023"; "06"; "15"; "10"; "10"]%string.
Proof.
  destruct (unixToMilitary_format ref_10_10) as [H _].
  - unfold ref_10_10, maxTime. lia.
  - rewrite H. vm_compute. reflexivity.
Defined.

Lemma calendar_of_day (x y : Z) :
  Day x = Day y ->
  YearFromTime x = YearFromTime y /\ MonthFromTime x = MonthFromTime y /\
  DateFromTime x = DateFromTime y.
Proof.
  intros H. unfold DateFromTime, MonthFromTime, DayWithinYear, InLeapYear, YearFromTime.
  rewrite H. repeat split; reflexivity.
Qed.

Lemma floor_to_minute_valid (x : Z) :
  - maxTime <= x <= maxTime -> - maxTime <= floor_to_minute x <= maxTime.
Proof. unfold floor_to_minute. time_arith. Qed.

(** Seconds and milliseconds do not show in the text. *)
Lemma unixToMilitary_floor (x : Z) :
  - maxTime <= x <= maxTime ->
  unixToMilitary (VNum (Num (floor_to_minute x))) = unixToMilitary (VNum (Num x)).
Proof.
  intros Hr. rewrite !unixToMilitary_valid by (try apply floor_to_minute_valid; assumption).
  assert (Day (floor_to_minute x) = Day x) as Hd by (unfold floor_to_minute; time_arith).
  destruct (calendar_of_day _ _ Hd) as (-> & -> & ->).
  assert (HourFromTime (floor_to_minute x) = HourFromTime x) as ->
    by (unfold floor_to_minute; time_arith).
  assert (MinFromTime (floor_to_minute x) = MinFromTime x) as ->
    by (unfold floor_to_minute; time_arith).
  reflexivity.
Qed.

Lemma LDec_inj (a b : Z) : LDec a 0 = LDec b 0 -> a = b.
Proof. congruence. Qed.

Lemma two_digits_inj (a b : Z) : 0 <= a -> 0 <= b -> two_digits a = two_digits b -> a = b.
Proof.
  intros Ha Hb H. apply LDec_inj.
  rewrite <- (decimal_StringToNumber _ _ (two_digits_decimal a Ha)).
  rewrite <- (decimal_StringToNumber _ _ (two_digits_decimal b Hb)).
  rewrite H. reflexivity.
Qed.

(** X9: two valid instants get the same text from [unixToMilitary] exactly
    when they lie in the same minute. *)
Theorem same_stamp_iff_same_minute (x y : Z) :
  - maxTime <= x <= maxTime -> - maxTime <= y <= maxTime ->
  (unixToMilitary (VNum (Num x)) = unixToMilitary (VNum (Num y))
   <-> floor_to_minute x = floor_to_minute y).
Proof.
  intros Hx Hy. split.
  - intros H. apply (f_equal (split "/")) in H.
    rewrite !split_unixToMilitary in H by assumption.
    pose proof (MonthFromTime_range x). pose proof (MonthFromTime_range y).
    pose proof (DateFromTime_range x). pose proof (DateFromTime_range y).
    pose proof (time_fields_range x) as (? & ? & _).
    pose proof (time_fields_range y) as (? & ? & _).
    assert (YearFromTime x = YearFromTime y) as Ey.
    { apply LDec_inj. rewrite <- !StringToNumber_Z_to_string.
      apply (f_equal (fun l => nth 0 l ""%string)) in H. cbn [nth Number_toString] in H.
      rewrite H. reflexivity. }
    assert (MonthFromTime x + 1 = MonthFromTime y + 1) as Em
      by (apply two_digits_inj; [lia | lia |];
          apply (f_equal (fun l => nth 1 l ""%string)) in H; exact H).
    assert (DateFromTime x = DateFromTime y) as Ed
      by (apply two_digits_inj; [lia | lia |];
          apply (f_equal (fun l => nth 2 l ""%string)) in H; exact H).
    assert (HourFromTime x = HourFromTime y) as Eh
      by (apply two_digits_inj; [lia | lia |];
          apply (f_equal (fun l => nth 3 l ""%string)) in H; exact H).
    assert (MinFromTime x = MinFromTime y) as Emi
      by (apply two_digits_inj; [lia | lia |];
          apply (f_equal (fun l => nth 4 l ""%string)) in H; exact H).
    assert (Day x = Day y) as Edy.
    { apply Num_inj.
      rewrite <- (Z.add_0_r (Day x)), <- (Z.add_0_r (Day y)), <- !MakeDay_fields.
      rewrite Ey, Ed. replace (MonthFromTime x) with (MonthFromTime y) by lia. reflexivity. }
    clear - Edy Eh Emi. unfold floor_to_minute. time_arith.
  - intros H. rewrite <- (unixToMilitary_floor x), <- (unixToMilitary_floor y) by assumption.
    rewrite H. reflexivity.
Qed.

Lemma same_stamp_iff_same_minute_witness :
  unixToMilitary (VNum (Num ref_10_10)) = unixToMilitary (VNum (Num (ref_10_10 + 59999))).
Proof.
  apply (same_stamp_iff_same_minute ref_10_10 (ref_10_10 + 59999)).
  - unfold ref_10_10, maxTime. lia.
  - unfold ref_10_10, maxTime. lia.
  - reflexivity.
Defined.

(** X6: for a valid instant whose UTC year is not one of 0..99, decoding
    its encoding gives the instant truncated down to the minute, and encoding
    that again gives the same text. *)
Theorem decode_encode_truncates (x : Z) :
  - maxTime <= x <= maxTime -> ~ 0 <= YearFromTime x <= 99 ->
  militaryToUnix (unixToMilitary (VNum (Num x))) = Num (floor_to_minute x) /\
  unixToMilitary (VNum (militaryToUnix (unixToMilitary (VNum (Num x)))))
  = unixToMilitary (VNum (Num x)).
Proof.
  intros Hr Hy. rewrite roundtrip_outside_first_century by assumption.
  split; [reflexivity | apply unixToMilitary_floor; assumption].
Qed.

Lemma decode_encode_truncates_witness :
  militaryToUnix (unixToMilitary (VNum (Num (ref_10_10 + 12345))))
  = Num (floor_to_minute (ref_10_10 + 12345)) /\
  unixToMilitary (VNum (militaryToUnix (unixToMilitary (VNum (Num (ref_10_10 + 12345))))))
  = unixToMilitary (VNum (Num (ref_10_10 + 12345))).
Proof.
  apply (decode_encode_truncates (ref_10_10 + 12345)).
  - unfold ref_10_10, maxTime. lia.
  - vm_compute. intros [_ H]. apply H. reflexivity.
Defined.

Lemma take_digits_count (base : Z) (s : string) (a : Z) (c : nat) :
  take_digits base s a c
  = let '(v, k, r) := take_digits base s a 0 in (v, (c + k)%nat, r).
Proof.
  revert a c. induction s as [|ch r IH]; intros a c; cbn [take_digits].
  - rewrite Nat.add_0_r. reflexivity.
  - destruct (digit_value base ch) as [dv|].
    + rewrite (IH _ (S c)), (IH _ 1%nat).
      destruct (take_digits base r (a * base + dv) 0) as [[v k] r'].
      f_equal. f_equal. lia.
    + rewrite Nat.add_0_r. reflexivity.
Qed.

(** A text of digits reads as the number [all_digits] finds in it. *)
Lemma decimal_of_all_digits (s : string) (n : Z) :
  forall_chars is_digit s = true -> all_digits 10 s = Some n -> decimal_of s n.
Proof.
  intros Hc Ha. split; [assumption|]. intros c.
  unfold all_digits in Ha. rewrite take_digits_count.
  destruct (take_digits 10 s 0 0) as [[v k] r].
  destruct k as [|k]; [discriminate|]. destruct r; [|discriminate].
  injection Ha as ->. exists k. f_equal. f_equal. lia.
Qed.

(** What [militaryToUnix] computes from five fields of digits. *)
Lemma militaryToUnix_stamp (ys ms ds hs mis : string) (y m d h mi : Z) :
  decimal_of ys y -> decimal_of ms m -> decimal_of ds d ->
  decimal_of hs h -> decimal_of mis mi ->
  militaryToUnix (stamp ys ms ds hs mis)
  = TimeClip (MakeDate (MakeDay (MakeFullYear (Num y)) (Num (m - 1)) (Num d))
                       (MakeTime (Num h) (Num mi) (Num 0) (Num 0))).
Proof.
  intros Dy Dm Dd Dh Dmi. unfold militaryToUnix, stamp. cbn [String.append].
  rewrite split_field by (eapply decimal_no_slash; exact Dy).
  rewrite split_field by (eapply decimal_no_slash; exact Dm).
  rewrite split_field by (eapply decimal_no_slash; exact Dd).
  rewrite split_field by (eapply decimal_no_slash; exact Dh).
  rewrite split_single by (eapply decimal_no_slash; exact Dmi).
  cbn [nth_error ToNumber_field].
  rewrite (decimal_StringToNumber _ _ Dy), (decimal_StringToNumber _ _ Dm),
    (decimal_StringToNumber _ _ Dd), (decimal_StringToNumber _ _ Dh),
    (decimal_StringToNumber _ _ Dmi).
  unfold Date_UTC. rewrite integral_pred_LDec_0, !integral_LDec_0. reflexivity.
Qed.

(** X10: [militaryToUnix] reads its fields as numbers: two texts whose
    five fields are digits and read as the same five numbers, with or without
    leading zeros, decode to the same result. *)
Theorem militaryToUnix_ignores_padding
  (ys ms ds hs mis ys' ms' ds' hs' mis' : string) (y m d h mi : Z) :
  decimal_of ys y -> decimal_of ms m -> decimal_of ds d ->
  decimal_of hs h -> decimal_of mis mi ->
  decimal_of ys' y -> decimal_of ms' m -> decimal_of ds' d ->
  decimal_of hs' h -> decimal_of mis' mi ->
  militaryToUnix (stamp ys ms ds hs mis) = militaryToUnix (stamp ys' ms' ds' hs' mis').
Proof.
  intros. rewrite (militaryToUnix_stamp ys ms ds hs mis y m d h mi) by assumption.
  rewrite (militaryToUnix_stamp ys' ms' ds' hs' mis' y m d h mi) by assumption.
  reflexivity.
Qed.

Lemma militaryToUnix_ignores_padding_witness :
  militaryToUnix "2023/6/5/7/3" = militaryToUnix "2023/06/005/07/03".
Proof.
  apply (militaryToUnix_ignores_padding "2023" "6" "5" "7" "3" "2023" "06" "005" "07" "03"
           2023 6 5 7 3);
    apply decimal_of_all_digits; reflexivity.
Defined.

(** X11: [militaryToUnix] does not reject a field beyond its usual range,
    it carries it over: 60 more minutes are one more hour, and 24 more hours
    are one more day. *)
Theorem militaryToUnix_carries_over
  (ys ms ds hs mis ds1 hs1 hs24 mis60 : string) (y m d h mi : Z) :
  decimal_of ys y -> decimal_of ms m -> decimal_of ds d ->
  decimal_of hs h -> decimal_of mis mi ->
  decimal_of mis60 (mi + 60) -> decimal_of hs1 (h + 1) ->
  decimal_of hs24 (h + 24) -> decimal_of ds1 (d + 1) ->
  militaryToUnix (stamp ys ms ds hs mis60) = militaryToUnix (stamp ys ms ds hs1 mis) /\
  militaryToUnix (stamp ys ms ds hs24 mis) = militaryToUnix (stamp ys ms ds1 hs mis).
Proof.
  intros Dy Dm Dd Dh Dmi Dmi60 Dh1 Dh24 Dd1.
  rewrite (militaryToUnix_stamp ys ms ds hs mis60 y m d h (mi + 60)) by assumption.
  rewrite (militaryToUnix_stamp ys ms ds hs1 mis y m d (h + 1) mi) by assumption.
  rewrite (militaryToUnix_stamp ys ms ds hs24 mis y m d (h + 24) mi) by assumption.
  rewrite (militaryToUnix_stamp ys ms ds1 hs mis y m (d + 1) h mi) by assumption.
  destruct (MakeFullYear (Num y)) as [yr| | |] eqn:Ey; [|split; reflexivity ..].
  unfold MakeDay, MakeTime, MakeDate.
  split; do 2 f_equal; unfold msPerDay, msPerHour, msPerMinute, msPerSecond; lia.
Qed.

Lemma militaryToUnix_carries_over_witness :
  militaryToUnix "2023/06/15/10/75" = militaryToUnix "2023/06/15/11/15" /\
  militaryToUnix "2023/06/15/34/15" = militaryToUnix "2023/06/16/10/15".
Proof.
  apply (militaryToUnix_carries_over "2023" "06" "15" "10" "15" "16" "11" "34" "75"
           2023 6 15 10 15);
    apply decimal_of_all_digits; reflexivity.
Defined.

(** * Further properties of the scheduler *)

Lemma settings_get_keys (s : Settings.t) (key : string) (n : Z) :
  settings_get s key = Some n ->
  key = "nextDay"%string \/ key = "nextHour"%string \/
  key = "nextMinute"%string \/ key = "nextSecond"%string.
Proof.
  unfold settings_get.
  destruct (String.eqb_spec key "nextDay"); [tauto|].
  destruct (String.eqb_spec key "nextHour"); [tauto|].
  destruct (String.eqb_spec key "nextMinute"); [tauto|].
  destruct (String.eqb_spec key "nextSecond"); [tauto|].
  discriminate.
Qed.

(** The loop of [every] raises in exactly one situation: the key is
    "nextDay" and the queue is shorter than [settings.nextDay].  The error is
    the TypeError of calling [this.nextDay], which does not exist. *)
Lemma every_Throw_iff
  (tz : zone) (clock : nat -> Z) (this : timing) (reads : nat) (key : string) :
  (exists e, every tz clock this reads key = Throw e) <->
  (key = "nextDay"%string /\
   Z.of_nat (List.length (upcomming this)) < Settings.nextDay (settings this)).
Proof.
  split.
  - intros [e He]. unfold every in He.
    pose proof (fill_result tz clock this reads key) as Hf.
    rewrite fill_step in He, Hf.
    destruct (below_depth this key) eqn:Hb.
    + unfold below_depth in Hb.
      destruct (settings_get (settings this) key) as [n|] eqn:Hn; [|discriminate].
      apply Z.ltb_lt in Hb.
      destruct (method tz key) as [calc|] eqn:Hm.
      * cbv zeta in He, Hf.
        destruct (fill tz clock _ _ key) as [[t r]|e']; [|congruence].
        destruct (js_lt _ _); discriminate.
      * destruct (settings_get_keys _ _ _ Hn) as [-> | [-> | [-> | ->]]];
          try discriminate Hm.
        split; [reflexivity|]. cbn in Hn. injection Hn as <-. exact Hb.
    + destruct (js_lt _ _); discriminate.
  - intros [-> Hlt]. exists TypeError. unfold every.
    assert (below_depth this "nextDay" = true) as Hb.
    { unfold below_depth.
      change (settings_get (settings this) "nextDay")
        with (Some (Settings.nextDay (settings this))).
      apply Z.ltb_lt. exact Hlt. }
    rewrite fill_step, Hb. reflexivity.
Qed.

(** X12: when a call of [every] does not return.  There are exactly two
    situations.  Either the key is "nextDay" and the queue is shorter than
    [settings.nextDay]: a TypeError is raised and the module is left as it
    was.  Or the call gets as far as calling back and the callback cannot be
    called or throws: the module is then left as after a call that returned,
    the fired entry out of the queue and recorded in [now]. *)
Theorem every_ends_abruptly_iff
  (tz : zone) (clock : nat -> Z) (doSomething : callback) (this : timing)
  (reads : nat) (key : string) :
  (abrupt (every_with tz clock doSomething this reads key) <->
   (key = "nextDay"%string /\
    Z.of_nat (List.length (upcomming this)) < Settings.nextDay (settings this)) \/
   (exists this' reads' timestamp,
      every tz clock this reads key = Normal (this', reads', [timestamp]) /\
      fails doSomething timestamp)) /\
  (key = "nextDay"%string ->
   Z.of_nat (List.length (upcomming this)) < Settings.nextDay (settings this) ->
   every_with tz clock doSomething this reads key = Raised TypeError this) /\
  (forall this' reads' timestamp,
     every tz clock this reads key = Normal (this', reads', [timestamp]) ->
     fails doSomething timestamp ->
     every_with tz clock doSomething this reads key
     = match doSomething with
       | NotCallable => Raised TypeError this'
       | Function _ => Thrown timestamp this'
       end).
Proof.
  pose proof (every_Throw_iff tz clock this reads key) as HT.
  unfold every_with, every in *.
  destruct (fill tz clock this reads key) as [[this1 reads1]|e].
  - assert (~ (key = "nextDay"%string /\
               Z.of_nat (List.length (upcomming this)) < Settings.nextDay (settings this)))
      as Hno.
    { intros H. apply HT in H. destruct H as [e He].
      destruct (js_lt _ _); discriminate. }
    clear HT.
    destruct (js_lt _ _); cbv zeta.
    + split; [|split].
      * split.
        -- intros Ha. right. eexists _, _, _. split; [reflexivity|].
           destruct doSomething as [|returns]; [exact I|]. cbn [fails].
           destruct (returns _); [contradiction | reflexivity].
        -- intros [H | (this' & reads' & ts & He & Hfail)]; [contradiction|].
           injection He as <- <- <-.
           destruct doSomething as [|returns]; [exact I|]. cbn [fails] in Hfail.
           rewrite Hfail. exact I.
      * intros Hk Hl. exfalso. apply Hno. split; assumption.
      * intros this' reads' ts He Hfail. injection He as <- <- <-.
        destruct doSomething as [|returns]; [reflexivity|]. cbn [fails] in Hfail.
        rewrite Hfail. reflexivity.
    + split; [|split].
      * split; [contradiction|].
        intros [H | (this' & reads' & ts & He & _)]; [contradiction | discriminate].
      * intros Hk Hl. exfalso. apply Hno. split; assumption.
      * intros this' reads' ts He. discriminate.
  - destruct e. split; [|split].
    + split; [|intros _; exact I].
      intros _. left. apply HT. exists TypeError. reflexivity.
    + reflexivity.
    + intros this' reads' ts He. discriminate.
Qed.

Lemma every_ends_abruptly_iff_witness :
  every_with (fixed 0) (fun _ => ref_10_10) NotCallable initial 0 "nextDay"
  = Raised TypeError initial /\
  every_with (fixed 0) (fun _ => ref_10_10) NotCallable
    {| now := VUndef; upcomming := [Num 60000; Num 120000; Num 180000];
       settings := Settings.mk 7 24 3 60 |} 0 "nextMinute"
  = Raised TypeError
      {| now := VNum (Num 60000); upcomming := [Num 120000; Num 180000];
         settings := Settings.mk 7 24 3 60 |}.
Proof.
  split.
  - apply (proj1 (proj2 (every_ends_abruptly_iff (fixed 0) (fun _ => ref_10_10) NotCallable
                           initial 0 "nextDay"))).
    + reflexivity.
    + vm_compute. reflexivity.
  - apply (proj2 (proj2 (every_ends_abruptly_iff (fixed 0) (fun _ => ref_10_10) NotCallable
                           {| now := VUndef; upcomming := [Num 60000; Num 120000; Num 180000];
                              settings := Settings.mk 7 24 3 60 |} 0 "nextMinute"))
             {| now := VNum (Num 60000); upcomming := [Num 120000; Num 180000];
                settings := Settings.mk 7 24 3 60 |} 1%nat "1970/01/01/00/01"%string).
    + vm_compute. reflexivity.
    + exact I.
Defined.



Section FillChain.

Variable tz : zone.
Variable clock : nat -> Z.
Variable key : string.
Variable calc : Z -> value -> jsnum.
Hypothesis Hcalc : method tz key = Some calc.

(** From a tail with room the calculator answers [next] of the tail. *)
Variable next : Z -> Z.
Variable room : nat -> Z -> Prop.
Hypothesis from_tail : forall g now z,
  room (S g) z -> z <> 0 /\ calc now (VNum (Num z)) = Num (next z) /\ room g (next z).

Lemma fill_chain (g : nat) :
  forall (this : timing) (reads : nat) (zs : list Z),
    gap this key = g -> upcomming this = map Num zs -> zs <> [] ->
    room g (last zs 0) ->
    fill tz clock this reads key
    = Normal ({| now := now this;
                 upcomming := map Num (zs ++ chain next g (last zs 0));
                 settings := settings this |}, reads).
Proof.
  induction g as [|g IH]; intros this reads zs Hg Hq Hne Hroom.
  - assert (below_depth this key = false) as Hb.
    { unfold gap in Hg. unfold below_depth.
      destruct (settings_get (settings this) key) as [n|]; [|reflexivity].
      apply Z.ltb_ge. lia. }
    rewrite fill_step, Hb. cbn [chain]. rewrite app_nil_r, <- Hq.
    destruct this; reflexivity.
  - unfold gap in Hg.
    destruct (settings_get (settings this) key) as [n|] eqn:Hn; [|discriminate].
    rewrite (fill_more tz clock this reads key n calc) by (try assumption; lia).
    rewrite Hq, last_entry_map.
    destruct zs as [|z0 zs0] eqn:Hz; [contradiction|]. rewrite <- Hz in *.
    destruct (from_tail g (clock reads) (last zs 0) Hroom) as (Hnz & Hc & Hr).
    rewrite truthy_nonzero by assumption. rewrite Hc.
    rewrite (IH (push this (Num (next (last zs 0)))) reads (zs ++ [next (last zs 0)])).
    + cbn [push now settings chain]. rewrite last_last, <- app_assoc. reflexivity.
    + unfold gap. cbn [push settings upcomming]. rewrite Hn.
      rewrite List.length_app. cbn [List.length]. lia.
    + cbn [push upcomming]. rewrite Hq, map_app. reflexivity.
    + intros E. apply app_eq_nil in E as [_ E]. discriminate.
    + rewrite last_last. exact Hr.
Qed.

(** An empty queue gets its first entry from the clock, the others from
    the tail. *)
Lemma fill_chain_from_empty (g : nat) (this : timing) (reads : nat) (z1 : Z) :
  gap this key = S g -> upcomming this = [] ->
  calc (clock reads) VUndef = Num z1 -> room g z1 ->
  fill tz clock this reads key
  = Normal ({| now := now this;
               upcomming := map Num (z1 :: chain next g z1);
               settings := settings this |}, S reads).
Proof.
  intros Hg Hq Hc Hr. unfold gap in Hg.
  destruct (settings_get (settings this) key) as [n|] eqn:Hn; [|discriminate].
  rewrite (fill_more tz clock this reads key n calc) by (try assumption; lia).
  rewrite Hq. cbn [last_entry truthy]. rewrite Hc.
  rewrite (fill_chain g (push this (Num z1)) (S reads) [z1]).
  - reflexivity.
  - unfold gap. cbn [push settings upcomming]. rewrite Hn, Hq. cbn [app List.length] in *.
    rewrite Hq in Hg. cbn [List.length] in Hg. lia.
  - cbn [push upcomming]. rewrite Hq. reflexivity.
  - discriminate.
  - exact Hr.
Qed.

End FillChain.

Lemma chain_next_minute (tz : Z) (g : nat) (z : Z) :
  chain (next_minute tz) g z = progression 60000 g (next_minute tz z).
Proof.
  revert z. induction g as [|g IH]; intros z; [reflexivity|].
  cbn [chain progression]. f_equal. rewrite IH. f_equal.
  apply next_minute_bounds.
Qed.

Lemma chain_same (g : nat) (z : Z) : chain (fun h => h) g z = repeat z g.
Proof. induction g as [|g IH]; [reflexivity|]. cbn [chain repeat]. f_equal. exact IH. Qed.

Lemma minute_tail_step (tz : zone) (off lo hi : Z) (Hz : steady tz off lo hi)
      (g : nat) (now z : Z) :
  room_minute (S g) z /\ within lo hi msPerMinute (S g) z ->
  z <> 0 /\ nextMinute tz now (VNum (Num z)) = Num (next_minute off z) /\
  (room_minute g (next_minute off z) /\ within lo hi msPerMinute g (next_minute off z)).
Proof.
  unfold room_minute, within. intros [[Hp Hr] [Hl Hh]]. split; [lia|].
  split; [apply (nextMinute_value tz off now _ _ Hz); unfold maxTime, msPerMinute in *; lia|].
  unfold next_minute. clear Hz. time_arith.
Qed.

Lemma hour_tail_step (tz : zone) (off : Z) (g : nat) (now z : Z) :
  room_hour tz (S g) z /\ steady tz off z z ->
  z <> 0 /\ nextHour tz now (VNum (Num z)) = Num z /\
  (room_hour tz g z /\ steady tz off z z).
Proof.
  unfold room_hour, on_hour. intros [[Hp Hh] Hz]. split; [lia|].
  rewrite (LocalTime_steady tz off _ _ Hz z) in Hh by lia.
  destruct Hh as (Hm & Hs & Hms).
  split; [apply (nextHour_fixed_point tz off now _ _ Hz); unfold maxTime in *; lia|].
  rewrite (LocalTime_steady tz off _ _ Hz z) by lia. tauto.
Qed.

(** X14: in a zone that is steady from the clock reading
    [t0] to [t0] plus [d] minutes, with an empty queue and a depth [d >= 1]
    for the minute kind, a call of [every] at [t0] (not before the epoch, [d]
    minutes inside the range of Date) leaves the [d] starts of the minutes
    after [t0], one minute apart, and does not call back while the first of
    them is not in the past. *)
Theorem every_fills_minutes_from_empty
  (tz : zone) (off : Z) (clock : nat -> Z) (this : timing) (reads : nat) (d : Z) :
  upcomming this = [] -> Settings.nextMinute (settings this) = d -> 1 <= d ->
  steady tz off (clock reads) (clock reads + d * 60000) ->
  0 <= clock reads -> clock reads + d * 60000 <= maxTime ->
  clock (S reads) <= next_minute off (clock reads) ->
  every tz clock this reads "nextMinute"
  = Normal ({| now := now this;
               upcomming := map Num (progression 60000 (Z.to_nat d)
                                                 (next_minute off (clock reads)));
               settings := settings this |}, S (S reads), []).
Proof.
  intros Hq Hs Hd Hz H0 Hmax Hfront.
  pose proof (next_minute_bounds off (clock reads)) as (Hb & _).
  assert (exists g, Z.to_nat d = S g) as [g Hg] by (exists (Z.to_nat (d - 1)); lia).
  unfold every.
  rewrite (fill_chain_from_empty tz clock "nextMinute" (nextMinute tz) eq_refl
             (next_minute off)
             (fun g z => room_minute g z /\
                         within (clock reads) (clock reads + d * 60000) msPerMinute g z)
             (minute_tail_step tz off _ _ Hz) g this reads
             (next_minute off (clock reads))).
  - rewrite chain_next_minute, Hg.
    assert (next_minute off (next_minute off (clock reads))
            = next_minute off (clock reads) + 60000)
      as -> by apply next_minute_bounds.
    cbn [upcomming map front_entry ToNumber js_lt progression].
    destruct (Z.ltb_spec (next_minute off (clock reads)) (clock (S reads)));
      [lia | reflexivity].
  - unfold gap. change (settings_get (settings this) "nextMinute")
      with (Some (Settings.nextMinute (settings this))).
    rewrite Hs, Hq. cbn [List.length]. lia.
  - exact Hq.
  - apply (nextMinute_at tz off (clock reads) _ _ Hz VUndef (clock reads));
      [reflexivity | | | |]; unfold maxTime, msPerMinute in *; lia.
  - unfold room_minute, within. unfold msPerMinute in *. lia.
Qed.

Lemma every_fills_minutes_from_empty_witness :
  every new_york_november (fun _ => ref_10_10 + 5) (set_minute_depth initial 5) 0 "nextMinute"
  = Normal ({| now := VUndef;
               upcomming := map Num (progression 60000 5 1686823860000);
               settings := Settings.mk 7 24 5 60 |}, 2%nat, []).
Proof.
  apply (every_fills_minutes_from_empty new_york_november (-14400000)
           (fun _ => ref_10_10 + 5) (set_minute_depth initial 5) 0 5).
  - reflexivity.
  - reflexivity.
  - lia.
  - apply steady_before. unfold ref_10_10. lia.
  - unfold ref_10_10. lia.
  - unfold ref_10_10, maxTime. lia.
  - vm_compute. discriminate.
Defined.

(** X15: in a zone that is steady from the tail of the
    queue to the last minute to be appended, the loop of [every] refills a
    non-empty queue of the minute kind from its tail alone: it appends the
    starts of the minutes that follow the tail, one minute apart, as many as
    are missing, and does not read the clock. *)
Theorem fill_appends_minutes_after_tail
  (tz : zone) (off : Z) (clock : nat -> Z) (this : timing) (reads : nat)
  (zs : list Z) (d : Z) :
  upcomming this = map Num zs -> zs <> [] ->
  Settings.nextMinute (settings this) = d ->
  steady tz off (last zs 0) (last zs 0 + Z.max 0 d * 60000) ->
  0 < last zs 0 -> last zs 0 + Z.max 0 d * 60000 <= maxTime ->
  fill tz clock this reads "nextMinute"
  = Normal ({| now := now this;
               upcomming :=
                 map Num (zs ++ progression 60000 (Z.to_nat (d - Z.of_nat (List.length zs)))
                                            (next_minute off (last zs 0)));
               settings := settings this |}, reads).
Proof.
  intros Hq Hne Hs Hz Hp Hmax.
  rewrite (fill_chain tz clock "nextMinute" (nextMinute tz) eq_refl
             (next_minute off)
             (fun g z => room_minute g z /\
                         within (last zs 0) (last zs 0 + Z.max 0 d * 60000) msPerMinute g z)
             (minute_tail_step tz off _ _ Hz)
             (gap this "nextMinute") this reads zs); try assumption; try reflexivity.
  - rewrite chain_next_minute. unfold gap.
    change (settings_get (settings this) "nextMinute")
      with (Some (Settings.nextMinute (settings this))).
    rewrite Hs, Hq, length_map. reflexivity.
  - unfold room_minute, within, gap.
    change (settings_get (settings this) "nextMinute")
      with (Some (Settings.nextMinute (settings this))).
    rewrite Hs. unfold msPerMinute. lia.
Qed.

Lemma fill_appends_minutes_after_tail_witness :
  fill new_york_november (fun _ => ref_10_10)
       {| now := VNum (Num 1686823860000);
          upcomming := [Num 1686823920000; Num 1686823980000];
          settings := Settings.mk 7 24 4 60 |} 7 "nextMinute"
  = Normal ({| now := VNum (Num 1686823860000);
               upcomming := [Num 1686823920000; Num 1686823980000;
                             Num 1686824040000; Num 1686824100000];
               settings := Settings.mk 7 24 4 60 |}, 7%nat).
Proof.
  apply (fill_appends_minutes_after_tail new_york_november (-14400000) (fun _ => ref_10_10)
           {| now := VNum (Num 1686823860000);
              upcomming := [Num 1686823920000; Num 1686823980000];
              settings := Settings.mk 7 24 4 60 |} 7
           [1686823920000; 1686823980000] 4).
  - reflexivity.
  - discriminate.
  - reflexivity.
  - apply steady_before. vm_compute. reflexivity.
  - vm_compute. reflexivity.
  - vm_compute. discriminate.
Defined.

(** X16: the queue of the hour kind does not advance.  From a non-empty
    queue whose tail is on a local hour boundary (a valid instant after the
    epoch, whose local time the zone reads back with the offset in effect at
    it) the loop of [every] appends only copies of that tail, because
    [nextHour] leaves an hour boundary where it is. *)
Theorem fill_repeats_the_hour
  (tz : zone) (off : Z) (clock : nat -> Z) (this : timing) (reads : nat)
  (zs : list Z) (d : Z) :
  upcomming this = map Num zs -> zs <> [] ->
  Settings.nextHour (settings this) = d ->
  steady tz off (last zs 0) (last zs 0) ->
  0 < last zs 0 <= maxTime -> on_hour tz (last zs 0) ->
  fill tz clock this reads "nextHour"
  = Normal ({| now := now this;
               upcomming :=
                 map Num (zs ++ repeat (last zs 0)
                                       (Z.to_nat (d - Z.of_nat (List.length zs))));
               settings := settings this |}, reads).
Proof.
  intros Hq Hne Hs Hz Hp Hh.
  rewrite (fill_chain tz clock "nextHour" (nextHour tz) eq_refl
             (fun h => h) (fun g z => room_hour tz g z /\ steady tz off z z)
             (hour_tail_step tz off)
             (gap this "nextHour") this reads zs); try assumption; try reflexivity.
  - rewrite chain_same. unfold gap.
    change (settings_get (settings this) "nextHour")
      with (Some (Settings.nextHour (settings this))).
    rewrite Hs, Hq, length_map. reflexivity.
  - split; [split|]; assumption.
Qed.

Lemma fill_repeats_the_hour_witness :
  fill new_york_november (fun _ => ref_10_10)
       {| now := VUndef; upcomming := [Num 1686823200000];
          settings := Settings.mk 7 4 60 60 |} 0 "nextHour"
  = Normal ({| now := VUndef;
               upcomming := [Num 1686823200000; Num 1686823200000;
                             Num 1686823200000; Num 1686823200000];
               settings := Settings.mk 7 4 60 60 |}, 0%nat).
Proof.
  apply (fill_repeats_the_hour new_york_november (-14400000) (fun _ => ref_10_10)
           {| now := VUndef; upcomming := [Num 1686823200000];
              settings := Settings.mk 7 4 60 60 |} 0 [1686823200000] 4).
  - reflexivity.
  - discriminate.
  - reflexivity.
  - apply steady_before. vm_compute. reflexivity.
  - vm_compute. split; [reflexivity | discriminate].
  - vm_compute. repeat split.
Defined.

(** X17: in a zone that is steady within a day of the clock
    reading, with an empty queue and a depth [d >= 1] for the hour kind, the
    loop of [every] at a clock reading at least a day after the epoch and a
    day inside the range of Date fills the queue with [d] copies of one
    instant, the local hour nearest to the clock reading. *)
Theorem fill_hours_from_empty
  (tz : zone) (off : Z) (clock : nat -> Z) (this : timing) (reads : nat) (d : Z) :
  upcomming this = [] -> Settings.nextHour (settings this) = d -> 1 <= d ->
  steady tz off (clock reads - msPerDay) (clock reads + msPerDay) ->
  msPerDay <= clock reads <= maxTime - msPerDay ->
  exists h,
    nextHour tz (clock reads) (VNum (Num (clock reads))) = Num h /\
    fill tz clock this reads "nextHour"
    = Normal ({| now := now this;
                 upcomming := map Num (repeat h (Z.to_nat d));
                 settings := settings this |}, S reads).
Proof.
  intros Hq Hs Hd Hz Hr.
  assert (clock reads <> 0) as Hnz by (unfold msPerDay in *; lia).
  assert (- maxTime + msPerDay <= clock reads <= maxTime - msPerDay) as Hr'
    by (unfold maxTime, msPerDay in *; lia).
  destruct (nextHour_result tz off (clock reads) (clock reads) Hz Hnz Hr')
    as (h & Hv & Hnear & Hm & Hsec & Hms).
  exists h. split; [assumption|].
  assert (steady tz off h h) as Hzh
    by (apply (steady_narrow tz off _ _ h h Hz); unfold msPerDay; lia).
  assert (exists g, Z.to_nat d = S g) as [g Hg] by (exists (Z.to_nat (d - 1)); lia).
  rewrite (fill_chain_from_empty tz clock "nextHour" (nextHour tz) eq_refl
             (fun z => z) (fun g z => room_hour tz g z /\ steady tz off z z)
             (hour_tail_step tz off) g this reads h).
  - rewrite chain_same, Hg. reflexivity.
  - unfold gap. change (settings_get (settings this) "nextHour")
      with (Some (Settings.nextHour (settings this))).
    rewrite Hs, Hq. cbn [List.length]. lia.
  - exact Hq.
  - rewrite (nextHour_at tz (clock reads) VUndef (clock reads)) by (reflexivity || assumption).
    exact Hv.
  - split; [|exact Hzh]. unfold room_hour, on_hour.
    rewrite (LocalTime_steady tz off _ _ Hzh h) by lia.
    split; [unfold maxTime, msPerDay in *; lia | tauto].
Qed.

Lemma fill_hours_from_empty_witness :
  exists h,
    nextHour new_york_november ref_10_10 (VNum (Num ref_10_10)) = Num h /\
    fill new_york_november (fun _ => ref_10_10) initial 0 "nextHour"
    = Normal ({| now := VUndef; upcomming := map Num (repeat h 24);
                 settings := Settings.mk 7 24 60 60 |}, 1%nat).
Proof.
  apply (fill_hours_from_empty new_york_november (-14400000) (fun _ => ref_10_10)
           initial 0 24).
  - reflexivity.
  - reflexivity.
  - lia.
  - apply steady_before. unfold ref_10_10, msPerDay. lia.
  - unfold ref_10_10, maxTime, msPerDay. lia.
Defined.

Lemma every_keeps_queue_nondecreasing_witness :
  exists filled reads1 zs1 this' reads' evs zs',
    fill new_york_november (fun _ => ref_10_10) (set_minute_depth initial 3) 0 "nextMinute"
    = Normal (filled, reads1) /\
    upcomming filled = map Num zs1 /\ nondecreasing zs1 /\
    3 <= Z.of_nat (List.length zs1) /\
    every new_york_november (fun _ => ref_10_10) (set_minute_depth initial 3) 0 "nextMinute"
    = Normal (this', reads', evs) /\
    upcomming this' = map Num zs' /\ nondecreasing zs'.
Proof.
  apply (every_keeps_queue_nondecreasing new_york_november (-14400000) 0 1699163999999
           (steady_before 1699164000000 (-14400000) (-18000000) 0 1699163999999 eq_refl)
           (fun _ => ref_10_10) 3
           ltac:(intros i; unfold ref_10_10, msPerDay, msPerMinute, maxTime; lia)
           ltac:(intros i; unfold inside, ref_10_10, msPerDay, msPerMinute; lia)
           (set_minute_depth initial 3) 0 "nextMinute" []).
  - right. left. reflexivity.
  - reflexivity.
  - reflexivity.
  - exact I.
  - constructor.
  - constructor.
Defined.

(** * Properties of the polling wrapper *)

Lemma every_calls_shape
  (tz : zone) (clock : nat -> Z) (this this' : timing) (reads reads' : nat)
  (key : string) (evs : list string) :
  every tz clock this reads key = Normal (this', reads', evs) ->
  evs = [] \/ exists s, evs = [s].
Proof.
  unfold every. destruct (fill tz clock this reads key) as [[t r]|e]; [|discriminate].
  destruct (js_lt _ _); intros H; injection H as <- <- <-; eauto.
Qed.

Lemma checkEvery_done
  (tz : zone) (clock : nat -> Z) (ticks : nat) :
  forall (this : timing) (reads : nat) (key : string) (more : nat),
    calls (checkEvery tz clock ticks this reads key) <> [] ->
    checkEvery tz clock (ticks + more) this reads key
    = checkEvery tz clock ticks this reads key.
Proof.
  induction ticks as [|n IH]; intros this reads key more Hc.
  - cbn in Hc. contradiction.
  - cbn [checkEvery Nat.add] in *.
    destruct (every tz clock this reads key) as [[[t r] evs]|e]; [|reflexivity].
    destruct evs as [|s rest]; [apply IH; exact Hc | reflexivity].
Qed.

(** X19: [checkEvery] is one-shot.  However many times its timer fires,
    [doSomething] is called at most once; and once it has been called,
    further firings change nothing: the timer is cleared. *)
Theorem checkEvery_is_one_shot
  (tz : zone) (clock : nat -> Z) (ticks : nat) (this : timing) (reads : nat) (key : string) :
  (List.length (calls (checkEvery tz clock ticks this reads key)) <= 1)%nat /\
  (forall more,
     calls (checkEvery tz clock ticks this reads key) <> [] ->
     checkEvery tz clock (ticks + more) this reads key
     = checkEvery tz clock ticks this reads key).
Proof.
  split; [|intros more; apply checkEvery_done].
  revert this reads. induction ticks as [|n IH]; intros this reads; [cbn; lia|].
  cbn [checkEvery].
  destruct (every tz clock this reads key) as [[[t r] evs]|e] eqn:E; [|cbn; lia].
  destruct (every_calls_shape _ _ _ _ _ _ _ _ E) as [-> | [s ->]].
  - apply IH.
  - cbn. lia.
Qed.

Lemma checkEvery_is_one_shot_witness :
  checkEvery (fixed 0) (fun i => ref_10_10 + Z.of_nat i * 30000) (3 + 5)
             (set_minute_depth initial 3) 0 "nextMinute"
  = checkEvery (fixed 0) (fun i => ref_10_10 + Z.of_nat i * 30000) 3
               (set_minute_depth initial 3) 0 "nextMinute".
Proof.
  apply (proj2 (checkEvery_is_one_shot (fixed 0) (fun i => ref_10_10 + Z.of_nat i * 30000) 3
                  (set_minute_depth initial 3) 0 "nextMinute") 5%nat).
  vm_compute. discriminate.
Defined.

(** X20: polling a key that has no depth in [settings] while the queue is
    empty does nothing, however long it lasts: no call of [doSomething], the
    module unchanged, one clock reading per firing.  This is the case of
    the key "nextday", under which the day calculator is stored. *)
Theorem checkEvery_without_depth_never_fires
  (tz : zone) (clock : nat -> Z) (ticks : nat) (this : timing) (reads : nat) (key : string) :
  settings_get (settings this) key = None -> upcomming this = [] ->
  checkEvery tz clock ticks this reads key = Normal (this, (reads + ticks)%nat, []).
Proof.
  intros Hs Hq. revert reads. induction ticks as [|n IH]; intros reads.
  - cbn [checkEvery]. rewrite Nat.add_0_r. reflexivity.
  - cbn [checkEvery]. unfold every. rewrite fill_no_depth by assumption.
    rewrite Hq. cbn [front_entry ToNumber js_lt].
    rewrite IH. replace (S reads + n)%nat with (reads + S n)%nat by lia. reflexivity.
Qed.

Lemma checkEvery_without_depth_never_fires_witness :
  checkEvery (fixed 0) (fun i => ref_10_10 + Z.of_nat i * msPerDay) 400 initial 0 "nextday"
  = Normal (initial, 400%nat, []).
Proof.
  apply (checkEvery_without_depth_never_fires (fixed 0)
           (fun i => ref_10_10 + Z.of_nat i * msPerDay) 400 initial 0 "nextday").
  - reflexivity.
  - reflexivity.
Defined.

Lemma last_repeat (h : Z) (m : nat) : last (repeat h (S m)) 0 = h.
Proof.
  induction m as [|m IH]; [reflexivity|].
  change (repeat h (S (S m))) with (h :: repeat h (S m)).
  change (last (h :: repeat h (S m)) 0) with (last (repeat h (S m)) 0). exact IH.
Qed.

(** A call of [every] for the hour kind on a queue of copies of one hour
    boundary that is in the past. *)
Lemma every_hour_fires
  (tz : zone) (off : Z) (clock : nat -> Z) (this : timing) (reads : nat) (h : Z) (m : nat) :
  upcomming this = map Num (repeat h (S m)) ->
  steady tz off h h ->
  0 < h <= maxTime -> on_hour tz h -> h < clock reads ->
  every tz clock this reads "nextHour"
  = Normal ({| now := VNum (Num h);
               upcomming := map Num (repeat h (m + gap this "nextHour"));
               settings := settings this |},
            S reads, [unixToMilitary (VNum (Num h))]).
Proof.
  intros Hq Hz Hp Hh Hc. unfold every.
  rewrite (fill_chain tz clock "nextHour" (nextHour tz) eq_refl
             (fun z => z) (fun g z => room_hour tz g z /\ steady tz off z z)
             (hour_tail_step tz off)
             (gap this "nextHour") this reads (repeat h (S m)));
    try assumption; try reflexivity.
  - rewrite chain_same, last_repeat, <- repeat_app.
    cbn [upcomming Nat.add repeat map front_entry ToNumber js_lt tl settings].
    destruct (Z.ltb_spec h (clock reads)); [reflexivity | lia].
  - discriminate.
  - rewrite last_repeat. split; [split|]; assumption.
Qed.

(** X21: the hour kind calls back again and again for the same hour.  On
    a queue of at least two copies of one local hour boundary that is in the
    past (and whose local time the zone reads back with the offset in effect
    at it), a call of [every] calls back with the text of that hour, and so
    does the next call: the queue never moves on to the following hour. *)
Theorem hour_kind_repeats_its_callback
  (tz : zone) (off : Z) (clock : nat -> Z) (this : timing) (reads : nat) (h : Z) (n : nat) :
  upcomming this = map Num (repeat h (S (S n))) ->
  steady tz off h h ->
  0 < h <= maxTime -> on_hour tz h ->
  h < clock reads -> h < clock (S reads) ->
  exists this1 this2,
    every tz clock this reads "nextHour"
    = Normal (this1, S reads, [unixToMilitary (VNum (Num h))]) /\
    every tz clock this1 (S reads) "nextHour"
    = Normal (this2, S (S reads), [unixToMilitary (VNum (Num h))]) /\
    now this2 = VNum (Num h) /\
    exists k, upcomming this2 = map Num (repeat h k).
Proof.
  intros Hq Hz Hp Hh Hc1 Hc2.
  rewrite (every_hour_fires tz off clock this reads h (S n)) by assumption.
  eexists. eexists. split; [reflexivity|].
  rewrite (every_hour_fires tz off clock _ (S reads) h (n + gap this "nextHour"))
    by (try assumption; reflexivity).
  split; [reflexivity|]. split; [reflexivity|]. eexists. reflexivity.
Qed.

Lemma hour_kind_repeats_its_callback_witness :
  exists this1 this2,
    every new_york_november (fun _ => ref_10_10)
          {| now := VUndef; upcomming := map Num (repeat 1686823200000 24);
             settings := Settings.mk 7 24 60 60 |} 0 "nextHour"
    = Normal (this1, 1%nat, [unixToMilitary (VNum (Num 1686823200000))]) /\
    every new_york_november (fun _ => ref_10_10) this1 1 "nextHour"
    = Normal (this2, 2%nat, [unixToMilitary (VNum (Num 1686823200000))]) /\
    now this2 = VNum (Num 1686823200000) /\
    exists k, upcomming this2 = map Num (repeat 1686823200000 k).
Proof.
  apply (hour_kind_repeats_its_callback new_york_november (-14400000) (fun _ => ref_10_10)
           {| now := VUndef; upcomming := map Num (repeat 1686823200000 24);
              settings := Settings.mk 7 24 60 60 |} 0 1686823200000 22).
  - reflexivity.
  - apply steady_before. vm_compute. reflexivity.
  - vm_compute. split; [reflexivity | discriminate].
  - vm_compute. repeat split.
  - vm_compute. reflexivity.
  - vm_compute. reflexivity.
Defined.
